(** * cron_parser: parsing and explaining five-field cron expressions

    A shallow embedding of the Python package [cron_parser]
    ([common.py], [parse.py], [explain.py]) together with the properties
    of it that the specification states.

    Conventions of the embedding.
    - A Python [str] is a Rocq [string]; a character is read as the code
      point with the same number (0..255).  The built-in string methods
      the package calls ([split], [isdigit], [int], [repr], ...) are
      modelled in module [Py] with the behaviour CPython has on those
      code points.
    - A Python [int] is a [Z]; a tuple or list of ints is a [list Z];
      a [set] of ints is a [gset Z]; a [dict] is a [gmap].
    - A function that can raise returns an [outcome]: [Ok v] for a normal
      return, [Raise e] for an exception [e] of the recorded class.
      Exception chaining ([raise ... from exc]) only sets [__cause__] and
      is not recorded. *)

From Stdlib Require Import ZArith NArith Ascii String DecimalString Sorted.
From stdpp Require Import base option list gmap sets strings sorting.

Open Scope string_scope.
Open Scope Z_scope.

(* ================================================================= *)
(** ** Exceptions and the monad of outcomes *)

Inductive exn : Type :=
  | ValueError (msg : string)
  | TypeError (msg : string)
  | NotImplementedError (msg : string)
  | AssertionError (msg : string)
  | IndexError (msg : string)
  | KeyError (msg : string).

Inductive outcome (A : Type) : Type :=
  | Ok (a : A)
  | Raise (e : exn).
Arguments Ok {A} a.
Arguments Raise {A} e.

#[global] Instance outcome_ret : MRet outcome := λ A a, Ok a.
#[global] Instance outcome_bind : MBind outcome := λ A B f m,
  match m with
  | Ok a => f a
  | Raise e => Raise e
  end.

(** [try: body except ValueError: handler] *)
Definition try_except_ValueError {A} (body : outcome A)
    (handler : string → outcome A) : outcome A :=
  match body with
  | Raise (ValueError msg) => handler msg
  | other => other
  end.

Definition is_ValueError {A} (r : outcome A) : Prop :=
  ∃ msg, r = Raise (ValueError msg).

(* ================================================================= *)
(** ** The Python built-ins the package relies on *)

Module Py.

Definition code (c : ascii) : N := N_of_ascii c.

Definition between (lo hi : N) (c : ascii) : bool :=
  ((lo <=? code c) && (code c <=? hi))%N.

(** [str.isspace] on one character: the ASCII white space including the
    separators FS, GS, RS, US, and NEL and NBSP above 127. *)
Definition isspace (c : ascii) : bool :=
  between 9 13 c || between 28 32 c || (code c =? 133)%N || (code c =? 160)%N.

(** [str.isdigit] on one character: the ASCII digits and the superscript
    digits two, three and one. *)
Definition isdigit_char (c : ascii) : bool :=
  between 48 57 c || (code c =? 178)%N || (code c =? 179)%N || (code c =? 185)%N.

Definition chars (s : string) : list ascii := list_ascii_of_string s.
Definition of_chars (cs : list ascii) : string := string_of_list_ascii cs.

(** [s.isdigit()]: at least one character and every character a digit. *)
Definition isdigit (s : string) : bool :=
  match chars s with
  | [] => false
  | cs => forallb isdigit_char cs
  end.

(** [c in s] for a one-character string [c]. *)
Definition contains (c : ascii) (s : string) : bool :=
  existsb (Ascii.eqb c) (chars s).

(** [s.split(sep)] for a one-character separator: empty pieces are kept. *)
Fixpoint split_on (sep : ascii) (s : string) : list string :=
  match s with
  | EmptyString => [EmptyString]
  | String c s' =>
      if Ascii.eqb c sep then EmptyString :: split_on sep s'
      else match split_on sep s' with
           | piece :: pieces => String c piece :: pieces
           | [] => [String c EmptyString]
           end
  end.

(** [s.split()]: the maximal runs of non-space characters. [cur] is the
    run being read, in reverse. *)
Fixpoint split_ws_from (cur : list ascii) (s : string) : list string :=
  match s with
  | EmptyString =>
      match cur with
      | [] => []
      | _ => [of_chars (rev cur)]
      end
  | String c s' =>
      if isspace c then
        match cur with
        | [] => split_ws_from [] s'
        | _ => of_chars (rev cur) :: split_ws_from [] s'
        end
      else split_ws_from (c :: cur) s'
  end.

Definition split_ws (s : string) : list string := split_ws_from [] s.

(** The longest prefix of [l] whose items satisfy [p], and the rest. *)
Fixpoint takewhile {A} (p : A → bool) (l : list A) : list A :=
  match l with
  | x :: l' => if p x then x :: takewhile p l' else []
  | [] => []
  end.

Fixpoint dropwhile {A} (p : A → bool) (l : list A) : list A :=
  match l with
  | x :: l' => if p x then dropwhile p l' else l
  | [] => []
  end.

(** [s.strip()] *)
Definition strip (s : string) : string :=
  of_chars (rev (dropwhile isspace (rev (dropwhile isspace (chars s))))).

(** [s.startswith(p)] *)
Definition startswith (p s : string) : bool := String.prefix p s.

(** [s.replace(old, new, 1)] for a non-empty [old]: the leftmost
    occurrence is replaced. *)
Fixpoint replace_first (old new s : string) : string :=
  if String.prefix old s then
    new +:+ String.substring (String.length old)
              (String.length s - String.length old) s
  else match s with
       | EmptyString => EmptyString
       | String c s' => String c (replace_first old new s')
       end.

(** [sep.join(items)] *)
Fixpoint join (sep : string) (items : list string) : string :=
  match items with
  | [] => EmptyString
  | [x] => x
  | x :: rest => x +:+ sep +:+ join sep rest
  end.

(** [str(n)] for an int of at most [int_max_str_digits] digits; beyond
    that CPython raises [ValueError], a case the package reaches with no
    value of a parsed schedule. The properties that print values bound
    them. *)
Definition str (n : Z) : string := NilZero.string_of_int (Z.to_int n).

(** [f"{n:02d}"]: sign-aware zero padding to width two, for an int of at
    most [int_max_str_digits] digits as for [str]. *)
Definition format_02d (n : Z) : string :=
  if (0 <=? n) && (n <? 10) then "0" +:+ str n else str n.

(** *** [repr] of a string *)

Definition hex_digit (n : N) : ascii :=
  if (n <? 10)%N then ascii_of_N (48 + n) else ascii_of_N (87 + n).

(** Printable code points below 256: neither a control character, nor
    NBSP, nor the soft hyphen. *)
Definition isprintable_char (c : ascii) : bool :=
  between 32 126 c || (between 161 255 c && negb (code c =? 173)%N).

Definition repr_char (quote : ascii) (c : ascii) : string :=
  if Ascii.eqb c quote || Ascii.eqb c "\"%char
  then String "\"%char (String c EmptyString)
  else if (code c =? 9)%N then "\t"
  else if (code c =? 10)%N then "\n"
  else if (code c =? 13)%N then "\r"
  else if isprintable_char c then String c EmptyString
  else String "\"%char (String "x"%char
         (String (hex_digit (code c / 16))
            (String (hex_digit (code c mod 16)) EmptyString))).

Definition double_quote : ascii := ascii_of_N 34.

(** Single quotes, unless the text has a single quote and no double one. *)
Definition repr_quote (s : string) : ascii :=
  if contains "'"%char s && negb (contains double_quote s)
  then double_quote else "'"%char.

Definition repr (s : string) : string :=
  let q := repr_quote s in
  String q (String.concat EmptyString (repr_char q <$> chars s)
            +:+ String q EmptyString).

(** *** [int] of a string, base ten *)

(** The default of [sys.get_int_max_str_digits()]. *)
Definition int_max_str_digits : Z := 4300.

(** Before scanning, characters from 127 on are mapped to a blank when
    they are white space and to a decimal digit when they have a decimal
    value; none below 256 has one, and [?] stands for the rest. *)
Definition int_normalise (c : ascii) : ascii :=
  if (code c <? 127)%N then c
  else if isspace c then " "%char
  else "?"%char.

(** The white space the scanner skips at both ends. *)
Definition int_isspace (c : ascii) : bool :=
  between 9 13 c || (code c =? 32)%N.

Definition digit_value (c : ascii) : option Z :=
  if between 48 57 c then Some (Z.of_N (code c) - 48) else None.

Definition is_underscore (c : ascii) : bool := Ascii.eqb c "_"%char.

Definition int_body_char (c : ascii) : bool :=
  bool_decide (is_Some (digit_value c)) || is_underscore c.

(** No two underscores in a row. *)
Fixpoint single_underscores (cs : list ascii) : bool :=
  match cs with
  | c1 :: ((c2 :: _) as rest) =>
      negb (is_underscore c1 && is_underscore c2) && single_underscores rest
  | _ => true
  end.

Definition digits_value (cs : list ascii) : Z :=
  fold_left (λ acc c, match digit_value c with
                      | Some d => 10 * acc + d
                      | None => acc
                      end) cs 0.

Definition count_digits (cs : list ascii) : Z :=
  Z.of_nat (length (filter (λ c, is_Some (digit_value c)) cs)).

Definition invalid_literal (s : string) : exn :=
  ValueError ("invalid literal for int() with base 10: " +:+ repr s).

(** An optional sign: whether it is a minus, and what follows it. *)
Definition int_sign (cs : list ascii) : bool * list ascii :=
  match cs with
  | c :: cs' =>
      if Ascii.eqb c "-"%char then (true, cs')
      else if Ascii.eqb c "+"%char then (false, cs')
      else (false, cs)
  | [] => (false, cs)
  end.

(** The digits after the sign, for the literal [s]. *)
Definition int_unsigned (s : string) (negative : bool) (cs : list ascii)
    : outcome Z :=
  let body := takewhile int_body_char cs in
  let trailing := dropwhile int_body_char cs in
  match body with
  | [] => Raise (invalid_literal s)
  | first :: _ =>
      if is_underscore first || negb (single_underscores body)
         || match last body with Some c => is_underscore c | None => true end
      then Raise (invalid_literal s)
      else if int_max_str_digits <? count_digits body then
        Raise (ValueError
          ("Exceeds the limit (" +:+ str int_max_str_digits
           +:+ " digits) for integer string conversion: value has "
           +:+ str (count_digits body)
           +:+ " digits; use sys.set_int_max_str_digits() to increase the limit"))
      else if negb (forallb int_isspace trailing) then Raise (invalid_literal s)
      else Ok (if negative then - digits_value body else digits_value body)
  end.

Definition int (s : string) : outcome Z :=
  let cs := dropwhile int_isspace (int_normalise <$> chars s) in
  let '(negative, cs) := int_sign cs in
  int_unsigned s negative cs.

(** *** [range] *)

(** The number of items of [range(start, stop, step)], [step] non-zero. *)
Definition range_length (start stop step : Z) : Z :=
  if 0 <? step then
    if start <? stop then (stop - start - 1) / step + 1 else 0
  else
    if stop <? start then (start - stop - 1) / (- step) + 1 else 0.

(** [tuple(range(start, stop, step))], for a range short enough to be
    built: CPython raises [OverflowError] beyond [sys.maxsize] items.
    The ranges of the package lie within [FIELD_RANGES]. *)
Definition range (start stop step : Z) : outcome (list Z) :=
  if step =? 0 then Raise (ValueError "range() arg 3 must not be zero")
  else Ok ((λ i, start + i * step) <$> seqZ 0 (range_length start stop step)).

(** [tuple(range(start, stop))], which cannot raise. *)
Definition range2 (start stop : Z) : list Z := seqZ start (stop - start).

(** [t[0]] and [t[-1]] on a tuple. *)
Definition first_item (t : list Z) : outcome Z :=
  match t with
  | x :: _ => Ok x
  | [] => Raise (IndexError "tuple index out of range")
  end.

Definition last_item (t : list Z) : outcome Z :=
  match last t with
  | Some x => Ok x
  | None => Raise (IndexError "tuple index out of range")
  end.

(** [d[k]] on a dict with int keys. *)
Definition getitem {V} (d : gmap Z V) (k : Z) : outcome V :=
  match d !! k with
  | Some v => Ok v
  | None => Raise (KeyError (str k))
  end.

(** [x in t] on a tuple of ints. *)
Definition mem (x : Z) (t : list Z) : bool := bool_decide (x ∈ t).

(** [len(t)] *)
Definition len {A} (t : list A) : Z := Z.of_nat (length t).

(** [tuple(sorted(s))] on a set of ints. *)
Definition sorted (s : gset Z) : list Z := merge_sort Z.le (elements s).

End Py.

(* ================================================================= *)
(** ** common.py *)

Definition FIELD_RANGES : gmap string (list Z) :=
  list_to_map [
    ("minutes", Py.range2 0 60);
    ("hours", Py.range2 0 24);
    ("day_of_month", Py.range2 1 32);
    ("month", Py.range2 1 13);
    ("day_of_week", Py.range2 0 7)
  ].

Definition DAY_NAME_TO_INDEX : gmap string Z :=
  list_to_map [("SUN", 0); ("MON", 1); ("TUE", 2); ("WED", 3);
               ("THU", 4); ("FRI", 5); ("SAT", 6)].

Definition MONTH_NAME_TO_INDEX : gmap string Z :=
  list_to_map [("JAN", 1); ("FEB", 2); ("MAR", 3); ("APR", 4);
               ("MAY", 5); ("JUN", 6); ("JUL", 7); ("AUG", 8);
               ("SEP", 9); ("OCT", 10); ("NOV", 11); ("DEC", 12)].

Definition DAY_INDEX_TO_NAME : gmap Z string :=
  list_to_map [(0, "Sunday"); (1, "Monday"); (2, "Tuesday");
               (3, "Wednesday"); (4, "Thursday"); (5, "Friday");
               (6, "Saturday")].

Definition MONTH_INDEX_TO_NAME : gmap Z string :=
  list_to_map [(1, "January"); (2, "February"); (3, "March");
               (4, "April"); (5, "May"); (6, "June"); (7, "July");
               (8, "August"); (9, "September"); (10, "October");
               (11, "November"); (12, "December")].

Definition ORDINAL_SUFFIXES : gmap Z string :=
  list_to_map [(1, "st"); (2, "nd"); (3, "rd")].

Record CronSchedule : Type := mkCronSchedule {
  minute : list Z;
  hour : list Z;
  day_of_month : list Z;
  month : list Z;
  day_of_week : list Z
}.

Definition dom_ (s : CronSchedule) : list Z := day_of_month s.
Definition dow (s : CronSchedule) : list Z := day_of_week s.

(** [FIELD_RANGES[key]] *)
Definition field_range (key : string) : outcome (list Z) :=
  match FIELD_RANGES !! key with
  | Some t => Ok t
  | None => Raise (KeyError (Py.repr key))
  end.

(* ================================================================= *)
(** ** parse.py *)

Definition EXPECTED_FIELD_COUNT : Z := 5.

Definition _invalid_cron_expression (expr : string) : exn :=
  ValueError (Py.repr expr +:+ " is not valid cron expression.").

Definition _expr_to_parts (expr : string) : outcome (string * Z) :=
  if Py.contains "/" expr then
    match Py.split_on "/" expr with
    | [value_expr; step_expr] =>
        if negb (Py.isdigit step_expr) then Raise (_invalid_cron_expression expr)
        else
          step_expr ← Py.int step_expr;
          Ok (value_expr, step_expr)
    | _ :: _ :: _ => Raise (ValueError "too many values to unpack (expected 2)")
    | _ => Raise (ValueError "not enough values to unpack (expected 2, got 1)")
    end
  else Ok (expr, 1).

(** [value_expr = str(transform_map[value_expr])] when
    [value_expr in transform_map]. *)
Definition substitute_alias (transform_map : gmap string Z) (name : string) : string :=
  match transform_map !! name with
  | Some index => Py.str index
  | None => name
  end.

Definition _parse_part (part : string) (allowed : list Z)
    (transform_map : option (gmap string Z)) : outcome (list Z) :=
  let transform_map := default ∅ transform_map in
  '(value_expr, step_expr) ← _expr_to_parts part;
  if Py.len allowed <=? step_expr then Raise (_invalid_cron_expression part)
  else
    let value_expr := substitute_alias transform_map value_expr in
    if Py.isdigit value_expr then
      if negb (step_expr =? 1) then Raise (_invalid_cron_expression part)
      else
        value ← Py.int value_expr;
        if negb (Py.mem value allowed) then Raise (_invalid_cron_expression part)
        else Ok [value]
    else if String.eqb value_expr "*" then
      lowest ← Py.first_item allowed;
      highest ← Py.last_item allowed;
      Py.range lowest (highest + 1) step_expr
    else if Py.contains "-" value_expr then
      match Py.split_on "-" value_expr with
      | [start; end_] =>
          let start := substitute_alias transform_map start in
          let end_ := substitute_alias transform_map end_ in
          start ← Py.int start;
          end_ ← Py.int end_;
          if negb (Py.mem start allowed) || negb (Py.mem end_ allowed)
          then Raise (_invalid_cron_expression part)
          else Py.range start (end_ + 1) step_expr
      | _ :: _ :: _ => Raise (ValueError "too many values to unpack (expected 2)")
      | _ => Raise (ValueError "not enough values to unpack (expected 2, got 1)")
      end
    else Raise (_invalid_cron_expression part).

(** The body of the [for part in parts] loop, with the set built so far. *)
Fixpoint _parse_expression_loop (parts : list string) (allowed : list Z)
    (transform_map : option (gmap string Z)) (result : gset Z)
    : outcome (gset Z) :=
  match parts with
  | [] => Ok result
  | part :: parts' =>
      values ← _parse_part part allowed transform_map;
      _parse_expression_loop parts' allowed transform_map
        (result ∪ list_to_set values)
  end.

Definition _parse_expression (expr : string) (allowed : list Z)
    (transform_map : option (gmap string Z)) : outcome (list Z) :=
  let parts := Py.split_on "," expr in
  result ← try_except_ValueError
             (_parse_expression_loop parts allowed transform_map ∅)
             (λ _, Raise (_invalid_cron_expression expr));
  Ok (Py.sorted result).

Definition parse (expression : string) : outcome CronSchedule :=
  let expression_parts := Py.split_ws expression in
  if negb (Py.len expression_parts =? EXPECTED_FIELD_COUNT)
  then Raise (_invalid_cron_expression expression)
  else
    match expression_parts with
    | [minutes; hours; day_of_month; month; day_of_week] =>
        try_except_ValueError
          (allowed ← field_range "minutes";
           minute ← _parse_expression minutes allowed None;
           allowed ← field_range "hours";
           hour ← _parse_expression hours allowed None;
           allowed ← field_range "day_of_month";
           day_of_month ← _parse_expression day_of_month allowed None;
           allowed ← field_range "month";
           month ← _parse_expression month allowed (Some MONTH_NAME_TO_INDEX);
           allowed ← field_range "day_of_week";
           day_of_week ← _parse_expression day_of_week allowed
                           (Some DAY_NAME_TO_INDEX);
           Ok (mkCronSchedule minute hour day_of_month month day_of_week))
          (λ _, Raise (_invalid_cron_expression expression))
    | _ => Raise (ValueError "wrong number of values to unpack (expected 5)")
    end.

(* ================================================================= *)
(** ** explain.py *)

Definition _WEEKDAYS : list Z := Py.range2 1 6.
Definition _MAX_DISCRETE_TIMES : Z := 3.

(** [n in _ORDINAL_EXCEPTION_RANGE], the range being [range(10, 21)]. *)
Definition in_ORDINAL_EXCEPTION_RANGE (n : Z) : bool := (10 <=? n) && (n <? 21).

(** What [explain] can be called with: a string, a schedule, or a value
    of any other type. *)
Inductive spec_arg : Type :=
  | SpecStr (s : string)
  | SpecSchedule (c : CronSchedule)
  | SpecOther.

(** [itertools.pairwise(values)] *)
Definition pairwise (values : list Z) : list (Z * Z) := zip values (tail values).

(** [items.append(item)], returning the list after the call. *)
Definition append {A} (items : list A) (item : A) : list A :=
  (items ++ [item])%list.

(** [values[:-1]] *)
Definition but_last {A} (values : list A) : list A := removelast values.

(** [step and step > 1] for an optional int: [None] and [0] are falsy. *)
Definition step_above_one (step : option Z) : bool :=
  match step with
  | Some n => negb (n =? 0) && (1 <? n)
  | None => false
  end.

Definition _is_full_range (values allowed : list Z) : bool :=
  bool_decide (values = allowed).

Definition _is_contiguous (values : list Z) : bool :=
  forallb (λ '(a, b), b - a =? 1) (pairwise values).

Definition _uniform_step (values : list Z) : option Z :=
  match values with
  | [] => None
  | [_] => Some 1
  | _ =>
      let steps : gset Z := list_to_set ((λ '(a, b), b - a) <$> pairwise values) in
      match elements steps with
      | [step] => Some step
      | _ => None
      end
  end.

Definition _is_full_stepped_cover (values allowed : list Z) (step : Z)
    : outcome bool :=
  match values with
  | [] => Ok false
  | first :: _ =>
      if negb (first =? 0) then Ok false
      else
        last ← Py.last_item allowed;
        seq ← Py.range 0 (last + 1) step;
        Ok (bool_decide (values = seq))
  end.

Definition _join_list (items : list string) : string :=
  match items with
  | [] => EmptyString
  | [item] => item
  | _ =>
      Py.join ", " (but_last items) +:+ " and " +:+ default EmptyString (last items)
  end.

Definition _as_ordinal (n : Z) : string :=
  if in_ORDINAL_EXCEPTION_RANGE n then Py.str n +:+ "th"
  else
    let last_digit := n `mod` 10 in
    match ORDINAL_SUFFIXES !! last_digit with
    | Some suffix => Py.str n +:+ suffix
    | None => Py.str n +:+ "th"
    end.

Definition _format_time (hours minutes : Z) : string :=
  Py.format_02d hours +:+ ":" +:+ Py.format_02d minutes.

Definition _summarize_full_range_time (minute _hour : list Z) : outcome string :=
  let step := _uniform_step minute in
  if step_above_one step then
    Ok ("Every " +:+ Py.str (default 0 step) +:+ " minutes")
  else if _is_contiguous minute then Ok "Every minute"
  else if Py.len minute =? 1 then
    m ← Py.first_item minute;
    Ok ("At " +:+ Py.format_02d m +:+ " every hour")
  else
    m_last ← Py.last_item minute;
    let minute_part :=
      Py.join ", " (Py.str <$> but_last minute) +:+ " and " +:+ Py.str m_last
      +:+ " minute" in
    Ok ("At " +:+ minute_part +:+ " every hour").

Definition _summarize_simple_exact_times (minute hour : list Z)
    : outcome (option string) :=
  if negb (Py.len minute =? 1) then
    Raise (AssertionError
             "This function is applicable for a single minute crons only")
  else
    m ← Py.first_item minute;
    let single_hour :=
      if Py.len hour =? 1 then
        h ← Py.first_item hour;
        Ok (Some ("At " +:+ _format_time h m))
      else Ok None in
    if (m =? 0) && (1 <? Py.len hour) then
      let step := _uniform_step hour in
      covered ←
        match step with
        | Some n =>
            if negb (n =? 0) then
              h0 ← Py.first_item hour;
              if h0 =? 0 then
                hours ← field_range "hours";
                _is_full_stepped_cover hour hours n
              else Ok false
            else Ok false
        | None => Ok false
        end;
      if covered : bool then
        Ok (Some ("Every " +:+ Py.str (default 0 step) +:+ " hours"))
      else if Py.len hour <=? _MAX_DISCRETE_TIMES then
        let times := (λ h, _format_time h m) <$> hour in
        Ok (Some ("At " +:+ _join_list times))
      else single_hour
    else single_hour.

Definition _summarize_contiguous_times (minute hour : list Z) : outcome string :=
  h_first ← Py.first_item hour;
  m_first ← Py.first_item minute;
  let start_time := _format_time h_first m_first in
  h_last ← Py.last_item hour;
  m_last ← Py.last_item minute;
  let end_time := _format_time h_last m_last in
  let step := _uniform_step minute in
  if step_above_one step && (1 <=? Py.len hour) then
    let start_time := _format_time h_first 0 in
    let end_time := _format_time h_last 59 in
    Ok ("Every " +:+ Py.str (default 0 step) +:+ " minutes from " +:+ start_time
        +:+ " to " +:+ end_time)
  else Ok ("Every minute between " +:+ start_time +:+ " and " +:+ end_time).

Definition _summarize_uniform_step (minute hour : list Z) (step : Z)
    : outcome (option string) :=
  if Py.len hour =? 0 then
    Raise (AssertionError
             "This function is applicable for a non-empty hour crons only")
  else if _is_contiguous hour && (1 <=? Py.len hour) then
    h_first ← Py.first_item hour;
    let start_time := _format_time h_first 0 in
    h_last ← Py.last_item hour;
    let end_time := _format_time h_last 59 in
    Ok (Some ("Every " +:+ Py.str step +:+ " minutes from " +:+ start_time
              +:+ " to " +:+ end_time))
  else if Py.len hour <=? _MAX_DISCRETE_TIMES then
    let windows :=
      (λ h, _format_time h 0 +:+ "-" +:+ _format_time h 59) <$> hour in
    Ok (Some ("Every " +:+ Py.str step +:+ " minutes in " +:+ _join_list windows))
  else Ok None.

(** The test on a single minute falls through to the later tests when
    its helper returns [None]; [later_tests] is the rest of the body from
    the test on contiguous blocks on. *)
Definition _summarize_time (minute hour : list Z) : outcome string :=
  let later_tests : outcome string :=
    if _is_contiguous minute && _is_contiguous hour && (1 <? Py.len minute)
       && (1 <=? Py.len hour)
    then _summarize_contiguous_times minute hour
    else
      let step := _uniform_step minute in
      if step_above_one step && negb (Py.len hour =? 0) then
        summarized ← _summarize_uniform_step minute hour (default 0 step);
        match summarized with
        | Some phrase => Ok phrase
        | None => Ok EmptyString
        end
      else Ok EmptyString in
  hours ← field_range "hours";
  if _is_full_range hour hours && negb (Py.len minute =? 0) then
    _summarize_full_range_time minute hour
  else if Py.len minute =? 1 then
    summarized ← _summarize_simple_exact_times minute hour;
    match summarized with
    | Some phrase => Ok phrase
    | None => later_tests
    end
  else later_tests.

(** [DAY_INDEX_TO_NAME[d]] and [MONTH_INDEX_TO_NAME[m]] for each item. *)
Definition day_names (days : list Z) : outcome (list string) :=
  mapM (Py.getitem DAY_INDEX_TO_NAME) days.

Definition month_names (months : list Z) : outcome (list string) :=
  mapM (Py.getitem MONTH_INDEX_TO_NAME) months.

(** The calendar helpers append to the list [bits] they are handed; here
    they return the list after the append. *)
Definition _summarize_non_full_dow (bits : list string) (dow : list Z)
    : outcome (list string) :=
  if bool_decide (dow = _WEEKDAYS) then Ok (append bits "on weekdays")
  else
    match dow with
    | [0; 6] => Ok (append bits "on weekends")
    | [day] =>
        name ← Py.getitem DAY_INDEX_TO_NAME day;
        Ok (append bits ("on " +:+ name))
    | _ =>
        if _is_contiguous dow then
          d_first ← Py.first_item dow;
          first_name ← Py.getitem DAY_INDEX_TO_NAME d_first;
          d_last ← Py.last_item dow;
          last_name ← Py.getitem DAY_INDEX_TO_NAME d_last;
          Ok (append bits ("on " +:+ first_name +:+ " to " +:+ last_name))
        else
          names ← day_names dow;
          Ok (append bits ("on " +:+ _join_list names))
    end.

Definition _summarize_non_full_dom (bits : list string) (dom month : list Z)
    : outcome (list string) :=
  let ords := _as_ordinal <$> dom in
  months ← field_range "month";
  match dom with
  | [day] =>
      if _is_full_range month months
      then Ok (append bits ("on the " +:+ _as_ordinal day +:+ " of each month"))
      else Ok (append bits ("on the " +:+ _as_ordinal day))
  | _ =>
      if _is_contiguous dom then
        d_first ← Py.first_item dom;
        d_last ← Py.last_item dom;
        Ok (append bits ("from the " +:+ _as_ordinal d_first +:+ " to the "
                     +:+ _as_ordinal d_last))
      else if _is_full_range month months
      then Ok (append bits ("on the " +:+ _join_list ords +:+ " of each month"))
      else Ok (append bits ("on the " +:+ _join_list ords))
  end.

Definition _summarize_non_full_month (bits : list string) (month : list Z)
    : outcome (list string) :=
  if _is_contiguous month then
    m_first ← Py.first_item month;
    first_name ← Py.getitem MONTH_INDEX_TO_NAME m_first;
    m_last ← Py.last_item month;
    last_name ← Py.getitem MONTH_INDEX_TO_NAME m_last;
    Ok (append bits ("during " +:+ first_name +:+ " to " +:+ last_name))
  else
    names ← month_names month;
    Ok (append bits ("in " +:+ _join_list names)).

Definition _summarize_calendar (dom month dow : list Z) : outcome (list string) :=
  let bits : list string := [] in
  days_of_week ← field_range "day_of_week";
  bits ← (if negb (_is_full_range dow days_of_week)
          then _summarize_non_full_dow bits dow else Ok bits);
  days_of_month ← field_range "day_of_month";
  bits ← (if negb (_is_full_range dom days_of_month)
          then _summarize_non_full_dom bits dom month else Ok bits);
  months ← field_range "month";
  bits ← (if negb (_is_full_range month months)
          then _summarize_non_full_month bits month else Ok bits);
  Ok bits.

Definition _ensure_cron_schedule (spec : spec_arg) : outcome CronSchedule :=
  match spec with
  | SpecStr expression => parse expression
  | SpecSchedule schedule => Ok schedule
  | SpecOther => Raise (TypeError "spec must be a cron string or CronSchedule")
  end.

(** [str(spec)], used in the message of [NotImplementedError]. *)
Definition show_tuple (t : list Z) : string :=
  match t with
  | [x] => "(" +:+ Py.str x +:+ ",)"
  | _ => "(" +:+ Py.join ", " (Py.str <$> t) +:+ ")"
  end.

Definition show_spec (spec : spec_arg) : string :=
  match spec with
  | SpecStr expression => expression
  | SpecSchedule c =>
      "CronSchedule(minute=" +:+ show_tuple (minute c)
      +:+ ", hour=" +:+ show_tuple (hour c)
      +:+ ", day_of_month=" +:+ show_tuple (day_of_month c)
      +:+ ", month=" +:+ show_tuple (month c)
      +:+ ", day_of_week=" +:+ show_tuple (day_of_week c) +:+ ")"
  | SpecOther => EmptyString
  end.

Definition explain (spec : spec_arg) : outcome string :=
  schedule ← _ensure_cron_schedule spec;
  let parts : list string := [] in
  time_phrase ← _summarize_time (minute schedule) (hour schedule);
  calendar_bits ← _summarize_calendar (day_of_month schedule) (month schedule)
                     (day_of_week schedule);
  let sentence :=
    if Py.startswith "At " time_phrase && bool_decide (calendar_bits = []) then
      "Every day " +:+ Py.replace_first "At " "at " time_phrase
    else
      let parts := if negb (String.eqb time_phrase EmptyString)
                   then append parts time_phrase else parts in
      let parts := if negb (bool_decide (calendar_bits = []))
                   then append parts (Py.join " " calendar_bits) else parts in
      Py.strip (Py.join " " parts) in
  if String.eqb sentence EmptyString then
    Raise (NotImplementedError
             ("Cannot generate explanation for " +:+ show_spec spec +:+ " right now"))
  else Ok (sentence +:+ ".").

(* ================================================================= *)
(** ** Vocabulary of the statements *)

(** The five positions of a cron expression. *)
Inductive field : Type := Minute | Hour | DayOfMonth | Month | DayOfWeek.

(** The range [parse] passes to [_parse_expression] for a field. *)
Definition field_allowed (f : field) : list Z :=
  match f with
  | Minute => Py.range2 0 60
  | Hour => Py.range2 0 24
  | DayOfMonth => Py.range2 1 32
  | Month => Py.range2 1 13
  | DayOfWeek => Py.range2 0 7
  end.

(** The key of a field in [FIELD_RANGES]. *)
Definition field_key (f : field) : string :=
  match f with
  | Minute => "minutes"
  | Hour => "hours"
  | DayOfMonth => "day_of_month"
  | Month => "month"
  | DayOfWeek => "day_of_week"
  end.

(** The least and greatest value a field may take. *)
Definition field_bounds (f : field) : Z * Z :=
  match f with
  | Minute => (0, 59)
  | Hour => (0, 23)
  | DayOfMonth => (1, 31)
  | Month => (1, 12)
  | DayOfWeek => (0, 6)
  end.

(** The alias table [parse] passes for a field. *)
Definition field_aliases (f : field) : option (gmap string Z) :=
  match f with
  | Month => Some MONTH_NAME_TO_INDEX
  | DayOfWeek => Some DAY_NAME_TO_INDEX
  | _ => None
  end.

Definition field_index (f : field) : nat :=
  match f with
  | Minute => 0 | Hour => 1 | DayOfMonth => 2 | Month => 3 | DayOfWeek => 4
  end%nat.

(** The token of a field among the white-space separated tokens. *)
Definition field_token (f : field) (tokens : list string) : string :=
  default EmptyString (tokens !! field_index f).

(** The values of a field in a schedule. *)
Definition field_values (f : field) (s : CronSchedule) : list Z :=
  match f with
  | Minute => minute s
  | Hour => hour s
  | DayOfMonth => day_of_month s
  | Month => month s
  | DayOfWeek => day_of_week s
  end.

(** The message every failure of [parse] carries. *)
Definition invalid_message (expression : string) : string :=
  Py.repr expression +:+ " is not valid cron expression.".

(** The sub-tokens of a field token: its pieces between commas. *)
Definition sub_tokens (token : string) : list string := Py.split_on "," token.

(** A reversed range: a sub-token whose base, as [_parse_part] reads it,
    is [start-end_] with two endpoints of the allowed range, the first
    above the last, and whose step is at least 1 and below the size of
    the range. *)
Definition reversed_range (allowed : list Z)
    (transform_map : option (gmap string Z)) (part : string) : bool :=
  let tm := default ∅ transform_map in
  match _expr_to_parts part with
  | Ok (value_expr, step_expr) =>
      (0 <? step_expr) && (step_expr <? Py.len allowed)
      && match Py.split_on "-" (substitute_alias tm value_expr) with
         | [start; end_] =>
             match Py.int (substitute_alias tm start),
                   Py.int (substitute_alias tm end_) with
             | Ok first, Ok last =>
                 Py.mem first allowed && Py.mem last allowed && (last <? first)
             | _, _ => false
             end
         | _ => false
         end
  | Raise _ => false
  end.

(** The ASCII letters, and text made of letters only. *)
Definition is_letter (c : ascii) : bool :=
  Py.between 65 90 c || Py.between 97 122 c.

Definition letters (s : string) : bool :=
  match Py.chars s with
  | [] => false
  | cs => forallb is_letter cs
  end.

(** ASCII case folding, to say what a wrongly cased alias is. *)
Definition ascii_upper (c : ascii) : ascii :=
  if Py.between 97 122 c then ascii_of_N (Py.code c - 32) else c.

Definition upper (s : string) : string :=
  Py.of_chars (ascii_upper <$> Py.chars s).

(** [name] is not a key of the table, but is one once upper-cased. *)
Definition miscased (transform_map : gmap string Z) (name : string) : bool :=
  bool_decide (transform_map !! name = None)
  && bool_decide (is_Some (transform_map !! upper name)).

(** The base of a sub-token names a wrongly cased alias, alone or as an
    endpoint of a range. *)
Definition uses_miscased_alias (transform_map : gmap string Z)
    (value_expr : string) : bool :=
  miscased transform_map value_expr
  || match Py.split_on "-" value_expr with
     | [start; end_] =>
         miscased transform_map start || miscased transform_map end_
     | _ => false
     end.

(** The table of full names of the field whose alias table is given. *)
Definition field_names (f : field) : gmap Z string :=
  match f with
  | Month => MONTH_INDEX_TO_NAME
  | DayOfWeek => DAY_INDEX_TO_NAME
  | _ => ∅
  end.

(** The alias a full name abbreviates to: its first three letters in
    upper case. *)
Definition abbreviation (full_name : string) : string :=
  upper (String.substring 0 3 full_name).

(** The arithmetic progression of [n] values from [first] by [step]. *)
Definition progression (first step n : Z) : list Z :=
  (λ i, first + i * step) <$> seqZ 0 n.

(** A time phrase that says something: it begins with "Every " or "At ". *)
Definition telling_phrase (phrase : string) : bool :=
  Py.startswith "Every " phrase || Py.startswith "At " phrase.

(** A calendar qualifier: it begins with "on ", "from ", "during " or
    "in ". *)
Definition qualifier (bit : string) : bool :=
  Py.startswith "on " bit || Py.startswith "from " bit
  || Py.startswith "during " bit || Py.startswith "in " bit.

(** A field covers the whole range of its position. *)
Definition full (f : field) (values : list Z) : bool :=
  _is_full_range values (field_allowed f).

(** The sentence [explain] builds from the time phrase and the calendar
    qualifiers, before it adds the period. *)
Definition built_sentence (time_phrase : string) (calendar_bits : list string)
    : string :=
  let parts : list string := [] in
  if Py.startswith "At " time_phrase && bool_decide (calendar_bits = []) then
    "Every day " +:+ Py.replace_first "At " "at " time_phrase
  else
    let parts := if negb (String.eqb time_phrase EmptyString)
                 then append parts time_phrase else parts in
    let parts := if negb (bool_decide (calendar_bits = []))
                 then append parts (Py.join " " calendar_bits) else parts in
    Py.strip (Py.join " " parts).

(** Every value of a tuple lies in the allowed range of a field. *)
Definition in_range (f : field) (values : list Z) : bool :=
  forallb (λ v, Py.mem v (field_allowed f)) values.

(** Text made of white space only. *)
Definition blank (s : string) : bool := forallb Py.isspace (Py.chars s).

(** A normal return, or a [ValueError]. *)
Definition ok_or_ValueError {A} (r : outcome A) : Prop :=
  (∃ a, r = Ok a) ∨ is_ValueError r.

(** The five field expansions [parse] runs, in order, inside its [try]. *)
Definition parse_fields (tokens : list string) : outcome CronSchedule :=
  minute ← _parse_expression (field_token Minute tokens)
             (field_allowed Minute) (field_aliases Minute);
  hour ← _parse_expression (field_token Hour tokens)
           (field_allowed Hour) (field_aliases Hour);
  day_of_month ← _parse_expression (field_token DayOfMonth tokens)
                   (field_allowed DayOfMonth) (field_aliases DayOfMonth);
  month ← _parse_expression (field_token Month tokens)
            (field_allowed Month) (field_aliases Month);
  day_of_week ← _parse_expression (field_token DayOfWeek tokens)
                  (field_allowed DayOfWeek) (field_aliases DayOfWeek);
  Ok (mkCronSchedule minute hour day_of_month month day_of_week).

(** The five fields of a parsed expression, as the tests compare them. *)
Definition parsed (expression : string) : outcome (list (list Z)) :=
  schedule ← parse expression;
  Ok [minute schedule; hour schedule; day_of_month schedule;
      month schedule; day_of_week schedule].

(** *** Tactics *)

(** Membership in a list given in full, after evaluation. *)
Ltac list_member :=
  vm_compute;
  repeat first [apply list_elem_of_here | apply list_elem_of_further].

(* ================================================================= *)
(** ** Facts about the built-ins *)

Section Builtins.

Lemma bind_Ok {A B} (m : outcome A) (k : A → outcome B) (b : B) :
  m ≫= k = Ok b ↔ ∃ a, m = Ok a ∧ k a = Ok b.
Proof.
  destruct m as [a|e]; simpl; split.
  - intros H. exists a. done.
  - intros (a' & [= <-] & H). done.
  - discriminate.
  - intros (a' & [=] & _).
Qed.

Lemma bind_Raise {A B} (m : outcome A) (k : A → outcome B) (e : exn) :
  m ≫= k = Raise e ↔ m = Raise e ∨ ∃ a, m = Ok a ∧ k a = Raise e.
Proof.
  destruct m as [a|e']; simpl; split.
  - intros H. right. exists a. done.
  - intros [[=] | (a' & [= <-] & H)]. done.
  - intros [= <-]. by left.
  - intros [[= <-] | (a' & [=] & _)]. done.
Qed.

Lemma bind_ok_or_ValueError {A B} (m : outcome A) (k : A → outcome B) :
  ok_or_ValueError m → (∀ a, ok_or_ValueError (k a)) →
  ok_or_ValueError (m ≫= k).
Proof.
  intros [[a ->] | [msg ->]] Hk; [apply Hk|]. right. by eexists.
Qed.

Lemma range_raises start stop step e :
  Py.range start stop step = Raise e → ∃ msg, e = ValueError msg.
Proof. unfold Py.range. case_match; [intros [= <-]; eauto | done]. Qed.

Lemma range_zero_step start stop :
  is_ValueError (Py.range start stop 0).
Proof. unfold Py.range. simpl. by eexists. Qed.

Lemma range_length_pos start stop step :
  0 < step → start < stop → 0 < Py.range_length start stop step.
Proof.
  intros Hstep Hlt. unfold Py.range_length.
  rewrite (proj2 (Z.ltb_lt 0 step) Hstep), (proj2 (Z.ltb_lt start stop) Hlt).
  assert (0 ≤ (stop - start - 1) `div` step) by (apply Z.div_pos; lia). lia.
Qed.

(** A range going up from [start] to beyond it begins with [start]. *)
Lemma range_nonempty start stop step :
  0 < step → start < stop →
  ∃ rest, Py.range start stop step = Ok (start :: rest).
Proof.
  intros Hstep Hlt. unfold Py.range.
  destruct (Z.eqb_spec step 0) as [->|_]; [lia|].
  pose proof (range_length_pos start stop step Hstep Hlt) as Hlen.
  rewrite seqZ_cons by done. rewrite fmap_cons.
  replace (start + 0 * step) with start by lia. eauto.
Qed.

(** An empty range with a positive step has its stop at or below its start. *)
Lemma range_empty_inv start stop step :
  0 < step → Py.range start stop step = Ok [] → stop ≤ start.
Proof.
  intros Hstep Hr.
  destruct (Z_lt_le_dec start stop) as [Hlt|Hle]; [|done].
  destruct (range_nonempty start stop step Hstep Hlt) as [rest Hrest].
  congruence.
Qed.

Lemma first_item_Ok (t : list Z) :
  t ≠ [] → ∃ x, Py.first_item t = Ok x ∧ head t = Some x.
Proof. destruct t as [|x t]; [done|]. intros _. by exists x. Qed.

Lemma last_item_Ok (t : list Z) :
  t ≠ [] → ∃ x, Py.last_item t = Ok x ∧ last t = Some x.
Proof.
  intros Ht. unfold Py.last_item.
  destruct (last t) as [x|] eqn:Hl; [by exists x|].
  apply last_None in Hl. done.
Qed.

(** *** [sorted] *)

Lemma sorted_Permutation (s : gset Z) : Py.sorted s ≡ₚ elements s.
Proof. apply merge_sort_Permutation. Qed.

Lemma elem_of_sorted (s : gset Z) (x : Z) : x ∈ Py.sorted s ↔ x ∈ s.
Proof. rewrite sorted_Permutation. apply elem_of_elements. Qed.

Lemma sorted_NoDup (s : gset Z) : NoDup (Py.sorted s).
Proof. rewrite sorted_Permutation. apply NoDup_elements. Qed.

Lemma StronglySorted_le_NoDup_lt (l : list Z) :
  StronglySorted Z.le l → NoDup l → StronglySorted Z.lt l.
Proof.
  induction 1 as [|x l Hl IH Hx]; intros Hnd; [constructor|].
  apply NoDup_cons in Hnd as [Hnotin Hnd].
  constructor; [by apply IH|].
  rewrite Forall_forall in Hx |- *. intros y Hy.
  assert (x ≠ y) by (intros ->; by apply Hnotin).
  specialize (Hx y Hy). lia.
Qed.

Lemma sorted_strictly_ascending (s : gset Z) :
  StronglySorted Z.lt (Py.sorted s).
Proof.
  apply StronglySorted_le_NoDup_lt; [|apply sorted_NoDup].
  apply Sorted_StronglySorted; [intros x y z; lia|].
  apply (Sorted_merge_sort Z.le).
Qed.

Lemma sorted_nil_inv (s : gset Z) : Py.sorted s = [] → s = ∅.
Proof.
  intros Hs. apply set_eq. intros x. rewrite <- elem_of_sorted, Hs.
  set_solver.
Qed.

(** *** [int] *)

Lemma int_unsigned_raises s negative cs e :
  Py.int_unsigned s negative cs = Raise e → ∃ msg, e = ValueError msg.
Proof.
  unfold Py.int_unsigned, Py.invalid_literal.
  repeat case_match; intros [= <-]; eauto.
Qed.

(** [int] raises nothing but [ValueError]. *)
Lemma int_raises s e : Py.int s = Raise e → ∃ msg, e = ValueError msg.
Proof.
  unfold Py.int. case_match. apply int_unsigned_raises.
Qed.

Lemma digits_value_from_nonneg cs acc :
  0 ≤ acc →
  0 ≤ fold_left (λ acc c, match Py.digit_value c with
                          | Some d => 10 * acc + d
                          | None => acc
                          end) cs acc.
Proof.
  revert acc. induction cs as [|c cs IH]; intros acc Hacc; simpl; [done|].
  apply IH. unfold Py.digit_value, Py.between.
  destruct (_ && _)%bool eqn:Hb; [|done].
  apply andb_prop in Hb as [Hlo _]. apply N.leb_le in Hlo. lia.
Qed.

Lemma digits_value_nonneg cs : 0 ≤ Py.digits_value cs.
Proof. by apply digits_value_from_nonneg. Qed.

Lemma int_unsigned_nonneg s cs v :
  Py.int_unsigned s false cs = Ok v → 0 ≤ v.
Proof.
  unfold Py.int_unsigned. repeat case_match; intros [= <-];
    apply digits_value_nonneg.
Qed.

(** A digit in the sense of [isdigit] is neither skipped as white space
    nor read as a sign by [int]. *)
Lemma isdigit_char_not_sign c :
  Py.isdigit_char c = true →
  Py.int_isspace (Py.int_normalise c) = false ∧
  Ascii.eqb (Py.int_normalise c) "-"%char = false ∧
  Ascii.eqb (Py.int_normalise c) "+"%char = false.
Proof.
  destruct c as [[] [] [] [] [] [] [] []]; vm_compute; intros H;
    first [discriminate H | done].
Qed.

(** The step of a token and the value of an all-digits base are never
    negative. *)
Lemma int_isdigit_nonneg s v :
  Py.isdigit s = true → Py.int s = Ok v → 0 ≤ v.
Proof.
  destruct s as [|c s]; [done|].
  unfold Py.isdigit, Py.int. simpl Py.chars. rewrite fmap_cons.
  intros Hd. apply andb_prop in Hd as [Hc _].
  destruct (isdigit_char_not_sign c Hc) as (Hsp & Hminus & Hplus).
  simpl Py.dropwhile. rewrite Hsp. unfold Py.int_sign. rewrite Hminus, Hplus.
  apply int_unsigned_nonneg.
Qed.


Lemma letter_not_int c :
  is_letter c = true →
  Py.int_isspace (Py.int_normalise c) = false ∧
  Ascii.eqb (Py.int_normalise c) "-"%char = false ∧
  Ascii.eqb (Py.int_normalise c) "+"%char = false ∧
  Py.int_body_char (Py.int_normalise c) = false.
Proof.
  destruct c as [[] [] [] [] [] [] [] []]; vm_compute; intros H;
    first [discriminate H | done].
Qed.

(** Text that begins with a letter is no literal for [int]. *)
Lemma int_letter_first c s :
  is_letter c = true → is_ValueError (Py.int (String c s)).
Proof.
  intros Hc. destruct (letter_not_int c Hc) as (Hsp & Hminus & Hplus & Hbody).
  unfold Py.int. simpl Py.chars. rewrite fmap_cons. simpl Py.dropwhile.
  rewrite Hsp. unfold Py.int_sign. rewrite Hminus, Hplus.
  unfold Py.int_unsigned. simpl Py.takewhile. rewrite Hbody.
  by eexists.
Qed.

(** *** Text made of letters *)

Lemma letter_char_facts c :
  is_letter c = true →
  Py.isdigit_char c = false ∧ Ascii.eqb c "*"%char = false ∧
  Ascii.eqb "-"%char c = false.
Proof.
  destruct c as [[] [] [] [] [] [] [] []]; vm_compute; intros H;
    first [discriminate H | done].
Qed.

Lemma ascii_upper_letter_inv c :
  is_letter (ascii_upper c) = true → is_letter c = true.
Proof.
  destruct c as [[] [] [] [] [] [] [] []]; vm_compute; intros H;
    first [discriminate H | done].
Qed.

Lemma isdigit_char_not_dash c :
  Py.isdigit_char c = true → Ascii.eqb "-"%char c = false.
Proof.
  destruct c as [[] [] [] [] [] [] [] []]; vm_compute; intros H;
    first [discriminate H | done].
Qed.

Lemma letters_upper_inv s : letters (upper s) = true → letters s = true.
Proof.
  unfold letters, upper, Py.of_chars, Py.chars.
  rewrite list_ascii_of_string_of_list_ascii.
  destruct (list_ascii_of_string s) as [|c cs]; [done|].
  rewrite fmap_cons. simpl. intros [Hc Hcs]%andb_prop.
  apply ascii_upper_letter_inv in Hc as ->. simpl.
  induction cs as [|c' cs IH]; [done|]. simpl in *.
  apply andb_prop in Hcs as [Hc' Hcs].
  apply ascii_upper_letter_inv in Hc' as ->. by apply IH.
Qed.

Lemma letters_no_dash s : letters s = true → Py.contains "-" s = false.
Proof.
  unfold letters, Py.contains.
  destruct (Py.chars s) as [|c cs]; [done|].
  generalize (c :: cs). clear. intros l.
  induction l as [|c l IH]; [done|]. cbn [existsb forallb].
  intros [Hc Hl]%andb_prop.
  destruct (letter_char_facts c Hc) as (_ & _ & ->). by apply IH.
Qed.

Lemma letters_not_isdigit s : letters s = true → Py.isdigit s = false.
Proof.
  unfold letters, Py.isdigit.
  destruct (Py.chars s) as [|c cs]; [done|]. cbn [forallb].
  intros [Hc _]%andb_prop.
  by destruct (letter_char_facts c Hc) as (-> & _ & _).
Qed.

Lemma letters_not_star s : letters s = true → String.eqb s "*" = false.
Proof.
  destruct s as [|c s]; [done|].
  unfold letters. cbn [Py.chars list_ascii_of_string forallb String.eqb].
  intros [Hc _]%andb_prop.
  by destruct (letter_char_facts c Hc) as (_ & -> & _).
Qed.

Lemma letters_not_int s : letters s = true → is_ValueError (Py.int s).
Proof.
  destruct s as [|c s]; [done|].
  unfold letters. cbn [Py.chars list_ascii_of_string forallb].
  intros [Hc _]%andb_prop. by apply int_letter_first.
Qed.

Lemma isdigit_no_dash s : Py.isdigit s = true → Py.contains "-" s = false.
Proof.
  unfold Py.isdigit, Py.contains.
  destruct (Py.chars s) as [|c cs]; [done|].
  generalize (c :: cs). clear. intros l.
  induction l as [|c l IH]; [done|]. cbn [existsb forallb].
  intros [Hc Hl]%andb_prop.
  rewrite (isdigit_char_not_dash c Hc). by apply IH.
Qed.

(** *** [split] *)

Lemma split_on_no_sep sep s :
  Py.contains sep s = false → Py.split_on sep s = [s].
Proof.
  unfold Py.contains, Py.chars.
  induction s as [|c s IH]; [done|].
  cbn [list_ascii_of_string existsb Py.split_on].
  intros [Hc Hs]%orb_false_elim. rewrite Ascii.eqb_sym in Hc.
  rewrite Hc, (IH Hs). done.
Qed.

End Builtins.

(* ================================================================= *)
(** ** Facts about parse.py *)

(** From [m ≫= k = Ok b], the value [m] returned and the equation of [k]. *)
Tactic Notation "bind_ok" hyp(H) simple_intropattern(x) ident(Hx) :=
  apply bind_Ok in H as (x & Hx & H); simpl in H.

Section ParseFacts.

Lemma _expr_to_parts_raises part e :
  _expr_to_parts part = Raise e → ∃ msg, e = ValueError msg.
Proof.
  unfold _expr_to_parts, _invalid_cron_expression.
  destruct (Py.contains "/" part); [|done].
  destruct (Py.split_on "/" part) as [|a [|b [|c l]]];
    try (intros [= <-]; eauto).
  destruct (Py.isdigit b); simpl; [|intros [= <-]; eauto].
  intros H. apply bind_Raise in H as [H | (x & _ & [=])].
  by apply int_raises in H.
Qed.

Lemma _expr_to_parts_step_nonneg part value_expr step_expr :
  _expr_to_parts part = Ok (value_expr, step_expr) → 0 ≤ step_expr.
Proof.
  unfold _expr_to_parts.
  destruct (Py.contains "/" part); [|intros [= _ <-]; lia].
  destruct (Py.split_on "/" part) as [|a [|b [|c l]]]; try done.
  destruct (Py.isdigit b) eqn:Hd; simpl; [|done].
  intros H. bind_ok H v Hv. injection H as _ <-.
  by apply (int_isdigit_nonneg b).
Qed.

(** What a normal return of [_parse_part] tells: the token split into a
    base and a step below the size of the range, and the base was a
    literal, the star, or a range. *)
Lemma _parse_part_Ok_inv part allowed transform_map values :
  _parse_part part allowed transform_map = Ok values →
  ∃ value_expr step_expr,
    _expr_to_parts part = Ok (value_expr, step_expr) ∧
    step_expr < Py.len allowed ∧
    let tm := default ∅ transform_map in
    let base := substitute_alias tm value_expr in
    (Py.isdigit base = true ∧ step_expr = 1 ∧
       ∃ value, Py.int base = Ok value ∧ value ∈ allowed ∧ values = [value])
    ∨ (Py.isdigit base = false ∧ base = "*" ∧
       ∃ lowest highest,
         head allowed = Some lowest ∧ last allowed = Some highest ∧
         Py.range lowest (highest + 1) step_expr = Ok values)
    ∨ (Py.isdigit base = false ∧ base ≠ "*" ∧
       ∃ start end_ first last,
         Py.split_on "-" base = [start; end_] ∧
         Py.int (substitute_alias tm start) = Ok first ∧
         Py.int (substitute_alias tm end_) = Ok last ∧
         first ∈ allowed ∧ last ∈ allowed ∧
         Py.range first (last + 1) step_expr = Ok values).
Proof.
  unfold _parse_part. intros H.
  bind_ok H parts Hparts. destruct parts as [value_expr step_expr].
  exists value_expr, step_expr. split; [done|].
  destruct (Z.leb_spec (Py.len allowed) step_expr) as [|Hstep]; [done|].
  split; [done|]. simpl.
  set (tm := default ∅ transform_map) in *.
  set (base := substitute_alias tm value_expr) in *.
  destruct (Py.isdigit base) eqn:Hdigit.
  - left. destruct (Z.eqb_spec step_expr 1) as [->|]; [simpl in H|done].
    bind_ok H value Hvalue.
    unfold Py.mem in H. case_bool_decide; [simpl in H|done].
    injection H as <-. eauto 10.
  - destruct (String.eqb_spec base "*") as [Hstar|Hstar].
    + right; left. do 2 (split; [done|]).
      bind_ok H lowest Hlowest. bind_ok H highest Hhighest.
      exists lowest, highest.
      destruct allowed as [|x allowed']; [done|].
      injection Hlowest as ->. unfold Py.last_item in Hhighest.
      destruct (last (lowest :: allowed')); [|done].
      injection Hhighest as ->. done.
    + right; right. do 2 (split; [done|]).
      destruct (Py.contains "-" base); [|done].
      destruct (Py.split_on "-" base) as [|start [|end_ [|c l]]]; try done.
      bind_ok H first Hfirst. bind_ok H last Hlast.
      unfold Py.mem in H.
      do 2 (case_bool_decide; [simpl in H|done]).
      eauto 12.
Qed.

(** [_parse_part] on a non-empty range raises nothing but [ValueError]. *)
Lemma _parse_part_raises part allowed transform_map e :
  allowed ≠ [] →
  _parse_part part allowed transform_map = Raise e → ∃ msg, e = ValueError msg.
Proof.
  intros Hallowed. unfold _parse_part, _invalid_cron_expression.
  intros H. apply bind_Raise in H as [H | ([value_expr step_expr] & _ & H)];
    [by apply _expr_to_parts_raises in H|].
  simpl in H.
  destruct (Py.len allowed <=? step_expr); [injection H as <-; eauto|].
  destruct (Py.isdigit _).
  - destruct (negb _); [injection H as <-; eauto|].
    apply bind_Raise in H as [H | (value & _ & H)]; [by apply int_raises in H|].
    destruct (negb _); [injection H as <-; eauto | done].
  - destruct (String.eqb _ "*").
    + destruct (first_item_Ok allowed Hallowed) as (lowest & Hlowest & _).
      destruct (last_item_Ok allowed Hallowed) as (highest & Hhighest & _).
      rewrite Hlowest, Hhighest in H. simpl in H. by apply range_raises in H.
    + destruct (Py.contains "-" _); [|injection H as <-; eauto].
      destruct (Py.split_on "-" _) as [|start [|end_ [|c l]]];
        try (injection H as <-; eauto).
      apply bind_Raise in H as [H | (first & _ & H)]; [by apply int_raises in H|].
      apply bind_Raise in H as [H | (last & _ & H)]; [by apply int_raises in H|].
      destruct (_ || _); [injection H as <-; eauto|].
      by apply range_raises in H.
Qed.

(** A token with step zero, or with a step that is not below the size
    of the range, is rejected. *)
Lemma _parse_part_bad_step part allowed transform_map value_expr step_expr :
  allowed ≠ [] →
  _expr_to_parts part = Ok (value_expr, step_expr) →
  step_expr = 0 ∨ Py.len allowed ≤ step_expr →
  is_ValueError (_parse_part part allowed transform_map).
Proof.
  intros Hallowed Hparts Hstep.
  destruct (_parse_part part allowed transform_map) as [values|e] eqn:Hrun;
    [|apply _parse_part_raises in Hrun as [msg ->]; [by eexists | done]].
  exfalso.
  apply _parse_part_Ok_inv in Hrun
    as (value_expr' & step_expr' & Hparts' & Hlt & Hcases).
  rewrite Hparts in Hparts'. injection Hparts' as <- <-.
  destruct Hstep as [-> | Hge]; [|lia].
  destruct Hcases as [(_ & [=] & _) | [(_ & _ & lo & hi & _ & _ & Hr)
    | (_ & _ & a & b & first & last & _ & _ & _ & _ & _ & Hr)]];
    by destruct (range_zero_step lo (hi + 1)) as [msg Hz] ||
       (destruct (range_zero_step first (last + 1)) as [msg Hz]; congruence).
Qed.

(** A token that expands to nothing is a reversed range. *)
Lemma _parse_part_nil_inv part allowed transform_map lowest highest :
  head allowed = Some lowest → last allowed = Some highest →
  lowest ≤ highest →
  _parse_part part allowed transform_map = Ok [] →
  reversed_range allowed transform_map part = true.
Proof.
  intros Hhead Hlast Hle Hrun.
  apply _parse_part_Ok_inv in Hrun
    as (value_expr & step_expr & Hparts & Hlt & Hcases).
  pose proof (_expr_to_parts_step_nonneg _ _ _ Hparts) as Hnonneg.
  assert (∀ start stop, Py.range start stop step_expr = Ok [] →
                        0 < step_expr ∧ stop ≤ start)
    as Hrange.
  { intros start stop Hr. destruct (Z.eq_dec step_expr 0) as [->|Hnz].
    - destruct (range_zero_step start stop) as [msg Hz]. congruence.
    - split; [lia|]. apply (range_empty_inv start stop step_expr); [lia | done]. }
  destruct Hcases as [(_ & _ & value & _ & _ & [=])
    | [(_ & _ & lo & hi & Hlo & Hhi & Hr)
    | (Hdigit & Hstar & start & end_ & first & last & Hsplit & Hfirst & Hlast'
       & Hfirst_in & Hlast_in & Hr)]].
  - apply Hrange in Hr as [_ Hr]. rewrite Hhead in Hlo. rewrite Hlast in Hhi.
    injection Hlo as <-. injection Hhi as <-. lia.
  - apply Hrange in Hr as [Hpos Hr]. unfold reversed_range.
    rewrite Hparts. simpl in Hsplit, Hfirst, Hlast'.
    rewrite Hsplit, Hfirst, Hlast'. unfold Py.mem.
    rewrite !bool_decide_eq_true_2 by done.
    rewrite (proj2 (Z.ltb_lt 0 step_expr)), (proj2 (Z.ltb_lt step_expr _) Hlt)
      by done.
    apply Z.ltb_lt. lia.
Qed.

Lemma split_on_two_contains sep s first second :
  Py.split_on sep s = [first; second] → Py.contains sep s = true.
Proof.
  intros Hsplit. destruct (Py.contains sep s) eqn:Hsep; [done|].
  apply split_on_no_sep in Hsep. congruence.
Qed.

(** A reversed range is accepted, and expands to nothing. *)
Lemma reversed_range_accepted part allowed transform_map :
  reversed_range allowed transform_map part = true →
  _parse_part part allowed transform_map = Ok [].
Proof.
  unfold reversed_range, _parse_part.
  destruct (_expr_to_parts part) as [[value_expr step_expr]|]; [|done].
  cbn [mbind outcome_bind].
  set (tm := default ∅ transform_map).
  set (base := substitute_alias tm value_expr).
  intros [[Hpos Hlt]%andb_prop Hrange]%andb_prop.
  apply Z.ltb_lt in Hpos, Hlt.
  destruct (Py.split_on "-" base) as [|start [|end_ [|c l]]] eqn:Hsplit;
    try discriminate Hrange.
  destruct (Py.int (substitute_alias tm start)) as [first|] eqn:Hfirst;
    [|discriminate Hrange].
  destruct (Py.int (substitute_alias tm end_)) as [last|] eqn:Hlast;
    [|discriminate Hrange].
  apply andb_prop in Hrange as [[Hfirst_in Hlast_in]%andb_prop Hrev].
  apply Z.ltb_lt in Hrev.
  pose proof (split_on_two_contains _ _ _ _ Hsplit) as Hdash.
  assert (Py.isdigit base = false) as ->.
  { destruct (Py.isdigit base) eqn:Hdigit; [|done].
    apply isdigit_no_dash in Hdigit. congruence. }
  assert (String.eqb base "*" = false) as ->.
  { destruct (String.eqb_spec base "*") as [Hstar|]; [|done].
    rewrite Hstar in Hsplit. discriminate Hsplit. }
  rewrite (proj2 (Z.leb_gt (Py.len allowed) step_expr) Hlt).
  rewrite Hdash. cbv zeta. cbn [mbind outcome_bind].
  rewrite Hfirst_in, Hlast_in. cbn [negb orb].
  unfold Py.range, Py.range_length.
  destruct (Z.eqb_spec step_expr 0); [lia|].
  rewrite (proj2 (Z.ltb_lt 0 step_expr) Hpos).
  by rewrite (proj2 (Z.ltb_ge first (last + 1))) by lia.
Qed.

(** *** The loop over the sub-tokens *)

Lemma _parse_expression_loop_Ok_inv parts allowed transform_map acc result :
  _parse_expression_loop parts allowed transform_map acc = Ok result →
  acc ⊆ result ∧
  ∀ part, part ∈ parts →
    ∃ values, _parse_part part allowed transform_map = Ok values ∧
              ∀ value, value ∈ values → value ∈ result.
Proof.
  revert acc. induction parts as [|p parts IH]; intros acc H; simpl in H.
  - injection H as <-. split; [done|]. intros part Hin. by apply elem_of_nil in Hin.
  - bind_ok H values Hvalues. apply IH in H as [Hsub Hparts].
    split; [intros x Hx; apply Hsub, elem_of_union; by left|].
    intros part [->|Hin]%elem_of_cons; [|by apply Hparts].
    exists values. split; [done|]. intros value Hvalue.
    apply Hsub, elem_of_union. right. by apply elem_of_list_to_set.
Qed.

Lemma _parse_expression_loop_raises parts allowed transform_map acc e :
  allowed ≠ [] →
  _parse_expression_loop parts allowed transform_map acc = Raise e →
  ∃ msg, e = ValueError msg.
Proof.
  intros Hallowed. revert acc.
  induction parts as [|p parts IH]; intros acc H; simpl in H; [done|].
  apply bind_Raise in H as [H | (values & _ & H)].
  - by apply _parse_part_raises in H.
  - by apply IH in H.
Qed.

(** *** One field *)

Lemma _parse_expression_Ok_inv expr allowed transform_map values :
  _parse_expression expr allowed transform_map = Ok values →
  ∃ result,
    _parse_expression_loop (sub_tokens expr) allowed transform_map ∅ = Ok result
    ∧ values = Py.sorted result.
Proof.
  unfold _parse_expression, sub_tokens. intros H.
  bind_ok H result Hresult. injection H as <-. exists result. split; [|done].
  destruct (_parse_expression_loop _ _ _ _) as [r|[]]; simpl in Hresult;
    congruence.
Qed.

(** A field either expands or raises the [ValueError] built for it. *)
Lemma _parse_expression_outcome expr allowed transform_map :
  allowed ≠ [] →
  (∃ values, _parse_expression expr allowed transform_map = Ok values) ∨
  _parse_expression expr allowed transform_map
    = Raise (_invalid_cron_expression expr).
Proof.
  intros Hallowed. unfold _parse_expression.
  destruct (_parse_expression_loop _ _ _ _) as [r|e] eqn:Hloop; simpl.
  - left. eauto.
  - right. apply _parse_expression_loop_raises in Hloop as [msg ->]; done.
Qed.

Lemma _parse_expression_ok_or_ValueError expr allowed transform_map :
  allowed ≠ [] →
  ok_or_ValueError (_parse_expression expr allowed transform_map).
Proof.
  intros Hallowed.
  destruct (_parse_expression_outcome expr allowed transform_map Hallowed)
    as [Hok | ->]; [by left | right; by eexists].
Qed.

(** A field with a sub-token that [_parse_part] rejects does not expand. *)
Lemma _parse_expression_part_fails expr allowed transform_map part values :
  part ∈ sub_tokens expr →
  is_ValueError (_parse_part part allowed transform_map) →
  _parse_expression expr allowed transform_map ≠ Ok values.
Proof.
  intros Hin [msg Hfail] Hrun.
  apply _parse_expression_Ok_inv in Hrun as (result & Hloop & _).
  apply _parse_expression_loop_Ok_inv in Hloop as [_ Hparts].
  destruct (Hparts part Hin) as (vs & Hvs & _). congruence.
Qed.

(** The set the loop returns holds the set it started from and the
    values of every sub-token, and nothing else. *)
Lemma _parse_expression_loop_elem_of parts allowed transform_map acc result :
  _parse_expression_loop parts allowed transform_map acc = Ok result →
  ∀ v, v ∈ result ↔
       v ∈ acc ∨ ∃ part values, part ∈ parts ∧
                   _parse_part part allowed transform_map = Ok values ∧
                   v ∈ values.
Proof.
  revert acc. induction parts as [|p parts IH]; intros acc H v; simpl in H.
  - injection H as <-. split; [by left|].
    intros [Hv | (part & values & Hin & _)]; [done|].
    by apply elem_of_nil in Hin.
  - bind_ok H values Hvalues. rewrite (IH _ H v), elem_of_union.
    rewrite elem_of_list_to_set. split.
    + intros [[Hv | Hv] | (part & vs & Hin & Hvs & Hv)].
      * by left.
      * right. exists p, values. split_and!; [apply list_elem_of_here|done..].
      * right. exists part, vs. split_and!; [by apply list_elem_of_further|done..].
    + intros [Hv | (part & vs & Hin & Hvs & Hv)]; [by left; left|].
      apply elem_of_cons in Hin as [-> | Hin].
      * left; right. congruence.
      * right. by exists part, vs.
Qed.

Lemma _parse_expression_elem_of expr allowed transform_map values :
  _parse_expression expr allowed transform_map = Ok values →
  ∀ v, v ∈ values ↔
       ∃ part part_values,
         part ∈ sub_tokens expr ∧
         _parse_part part allowed transform_map = Ok part_values ∧
         v ∈ part_values.
Proof.
  intros Hrun v.
  apply _parse_expression_Ok_inv in Hrun as (result & Hloop & ->).
  rewrite elem_of_sorted,
    (_parse_expression_loop_elem_of _ _ _ _ _ Hloop v).
  split; [intros [Hv | Hv]; [by apply not_elem_of_empty in Hv | done]
         | by right].
Qed.

(** *** The whole expression *)

Lemma field_allowed_nonempty f : field_allowed f ≠ [].
Proof. by destruct f. Qed.

Lemma field_allowed_bounds f :
  ∃ lowest highest,
    head (field_allowed f) = Some lowest ∧
    last (field_allowed f) = Some highest ∧ lowest ≤ highest.
Proof. destruct f; eexists _, _; (split; [|split]); by vm_compute. Qed.

Lemma parse_wrong_count expression :
  Py.len (Py.split_ws expression) ≠ EXPECTED_FIELD_COUNT →
  parse expression = Raise (_invalid_cron_expression expression).
Proof.
  intros Hcount. unfold parse.
  by destruct (Z.eqb_spec (Py.len (Py.split_ws expression)) EXPECTED_FIELD_COUNT).
Qed.

Lemma parse_five expression :
  Py.len (Py.split_ws expression) = EXPECTED_FIELD_COUNT →
  parse expression
  = try_except_ValueError (parse_fields (Py.split_ws expression))
      (λ _, Raise (_invalid_cron_expression expression)).
Proof.
  intros Hcount. unfold parse. rewrite Hcount.
  destruct (Py.split_ws expression) as [|t0 [|t1 [|t2 [|t3 [|t4 [|t5 l]]]]]];
    try discriminate Hcount; [reflexivity|].
  exfalso. unfold Py.len, EXPECTED_FIELD_COUNT in Hcount. simpl length in Hcount. lia.
Qed.

Lemma parse_fields_Ok_inv tokens schedule :
  parse_fields tokens = Ok schedule →
  ∀ f, _parse_expression (field_token f tokens) (field_allowed f)
         (field_aliases f) = Ok (field_values f schedule).
Proof.
  unfold parse_fields. intros H.
  bind_ok H v0 H0. bind_ok H v1 H1. bind_ok H v2 H2. bind_ok H v3 H3.
  bind_ok H v4 H4. injection H as <-. by intros [].
Qed.

Lemma parse_fields_outcome tokens :
  ok_or_ValueError (parse_fields tokens).
Proof.
  unfold parse_fields.
  repeat (apply bind_ok_or_ValueError;
          [apply _parse_expression_ok_or_ValueError, field_allowed_nonempty
          |intros ?]).
  left. eauto.
Qed.

(** [parse] returns a schedule or raises its one [ValueError]. *)
Lemma parse_outcome expression :
  (∃ schedule, parse expression = Ok schedule) ∨
  parse expression = Raise (_invalid_cron_expression expression).
Proof.
  destruct (Z.eq_dec (Py.len (Py.split_ws expression)) EXPECTED_FIELD_COUNT)
    as [Hcount|Hcount]; [|right; by apply parse_wrong_count].
  rewrite (parse_five _ Hcount).
  destruct (parse_fields_outcome (Py.split_ws expression)) as [[s ->] | [msg ->]].
  - left. by exists s.
  - by right.
Qed.

(** A schedule comes from five tokens, each expanded on its own. *)
Lemma parse_Ok_inv expression schedule :
  parse expression = Ok schedule →
  length (Py.split_ws expression) = 5%nat ∧
  ∀ f, _parse_expression (field_token f (Py.split_ws expression))
         (field_allowed f) (field_aliases f) = Ok (field_values f schedule).
Proof.
  intros H.
  destruct (Z.eq_dec (Py.len (Py.split_ws expression)) EXPECTED_FIELD_COUNT)
    as [Hcount|Hcount]; [|by rewrite parse_wrong_count in H].
  split; [unfold Py.len, EXPECTED_FIELD_COUNT in Hcount; lia|].
  rewrite (parse_five _ Hcount) in H. apply parse_fields_Ok_inv.
  destruct (parse_fields _) as [s|[]]; simpl in H; congruence.
Qed.

(** An expression with a sub-token that [_parse_part] rejects is invalid. *)
Lemma parse_part_fails expression f part :
  part ∈ sub_tokens (field_token f (Py.split_ws expression)) →
  is_ValueError (_parse_part part (field_allowed f) (field_aliases f)) →
  parse expression = Raise (_invalid_cron_expression expression).
Proof.
  intros Hin Hfail.
  destruct (parse_outcome expression) as [[schedule Hrun] | Hrun]; [|done].
  exfalso. apply parse_Ok_inv in Hrun as [_ Hfields].
  by eapply _parse_expression_part_fails.
Qed.

End ParseFacts.

(* ================================================================= *)
(** ** Properties of the parser *)

Section ParserProperties.

(** C1, as stated, fails: the reversed range [20-10] is accepted and
    expands to nothing, so the minute field of the schedule is empty. *)
Lemma parse_reversed_range_yields_empty_field :
  parse "20-10 * * * *"
  = Ok {| minute := [];
          hour := field_allowed Hour;
          day_of_month := field_allowed DayOfMonth;
          month := field_allowed Month;
          day_of_week := field_allowed DayOfWeek |}.
Proof. by vm_compute. Qed.

(** C1, amended: for every expression on which [parse] succeeds, each of
    the five fields of the schedule is a non-empty sequence, unless every
    comma-separated sub-token of that field is a reversed range (a range
    [start-end] with both endpoints in the allowed range and the start
    above the end). A reversed range is accepted and expands to no value,
    so a field made of reversed ranges only is empty. *)
Theorem parse_field_nonempty_or_reversed_ranges
    (expression : string) (schedule : CronSchedule) :
  parse expression = Ok schedule →
  ∀ f,
    (field_values f schedule ≠ [] ∨
     ∀ part, part ∈ sub_tokens (field_token f (Py.split_ws expression)) →
             reversed_range (field_allowed f) (field_aliases f) part = true) ∧
    ((∀ part, part ∈ sub_tokens (field_token f (Py.split_ws expression)) →
              reversed_range (field_allowed f) (field_aliases f) part = true) →
     field_values f schedule = []) ∧
    (∀ part, reversed_range (field_allowed f) (field_aliases f) part = true →
             _parse_part part (field_allowed f) (field_aliases f) = Ok []).
Proof.
  intros Hrun f. apply parse_Ok_inv in Hrun as [_ Hfields].
  specialize (Hfields f). split_and!.
  - destruct (field_values f schedule) as [|v vs]; [right|by left].
    intros part Hin.
    apply _parse_expression_Ok_inv in Hfields as (result & Hloop & Hsorted).
    symmetry in Hsorted. apply sorted_nil_inv in Hsorted as ->.
    apply _parse_expression_loop_Ok_inv in Hloop as [_ Hparts].
    destruct (Hparts part Hin) as (values & Hvalues & Hempty).
    destruct values as [|value values'].
    + destruct (field_allowed_bounds f)
        as (lowest & highest & Hhead & Hlast & Hle).
      exact (_parse_part_nil_inv part (field_allowed f) (field_aliases f)
               lowest highest Hhead Hlast Hle Hvalues).
    + exfalso. apply (not_elem_of_empty (C:=gset Z) value), Hempty. by left.
  - intros Hall.
    destruct (field_values f schedule) as [|v vs] eqn:Hvalues; [done|].
    exfalso.
    assert (v ∈ v :: vs) as Hv by apply list_elem_of_here.
    apply (_parse_expression_elem_of _ _ _ _ Hfields) in Hv
      as (part & part_values & Hin & Hpart & Hv).
    rewrite (reversed_range_accepted _ _ _ (Hall part Hin)) in Hpart.
    injection Hpart as <-. by apply elem_of_nil in Hv.
  - intros part. apply reversed_range_accepted.
Qed.

Lemma parse_field_nonempty_or_reversed_ranges_witness :
  let expression := "20-10,5-3/2 7 2-1,1-2 MAR-FEB,3 *" in
  let schedule := {| minute := []; hour := [7]; day_of_month := [1; 2];
                     month := [3]; day_of_week := field_allowed DayOfWeek |} in
  parse expression = Ok schedule ∧
  ∀ f,
    (field_values f schedule ≠ [] ∨
     ∀ part, part ∈ sub_tokens (field_token f (Py.split_ws expression)) →
             reversed_range (field_allowed f) (field_aliases f) part = true) ∧
    ((∀ part, part ∈ sub_tokens (field_token f (Py.split_ws expression)) →
              reversed_range (field_allowed f) (field_aliases f) part = true) →
     field_values f schedule = []) ∧
    (∀ part, reversed_range (field_allowed f) (field_aliases f) part = true →
             _parse_part part (field_allowed f) (field_aliases f) = Ok []).
Proof.
  assert (parse "20-10,5-3/2 7 2-1,1-2 MAR-FEB,3 *"
          = Ok {| minute := []; hour := [7]; day_of_month := [1; 2];
                  month := [3]; day_of_week := field_allowed DayOfWeek |})
    as Hrun by (by vm_compute).
  split; [exact Hrun|].
  exact (parse_field_nonempty_or_reversed_ranges _ _ Hrun).
Defined.

(** Reversed ranges at work: accepted ones expand to nothing, and a range
    with an endpoint out of range or with step 0 is no reversed range and
    is rejected. *)
Example reversed_range_examples :
  reversed_range (field_allowed Minute) None "20-10" = true ∧
  _parse_part "20-10" (field_allowed Minute) None = Ok [] ∧
  reversed_range (field_allowed Month) (field_aliases Month) "MAR-FEB/2" = true ∧
  _parse_part "MAR-FEB/2" (field_allowed Month) (field_aliases Month) = Ok [] ∧
  reversed_range (field_allowed Minute) None "70-65" = false ∧
  is_ValueError (_parse_part "70-65" (field_allowed Minute) None) ∧
  reversed_range (field_allowed Minute) None "5-3/0" = false ∧
  is_ValueError (_parse_part "5-3/0" (field_allowed Minute) None) ∧
  reversed_range (field_allowed Minute) None "10-20" = false.
Proof. split_and!; first [by vm_compute | by eexists]. Qed.

(** C2: for each of the five fields, expanding the token [*] with the
    range and alias table of that field yields exactly the full allowed
    range of the field, from its least to its greatest value, strictly
    ascending and without duplicates. *)
Theorem star_expands_to_full_range (f : field) :
  field_range (field_key f) = Ok (field_allowed f) ∧
  _parse_part "*" (field_allowed f) (field_aliases f) = Ok (field_allowed f) ∧
  _parse_expression "*" (field_allowed f) (field_aliases f)
    = Ok (field_allowed f) ∧
  field_allowed f
    = seqZ (field_bounds f).1 ((field_bounds f).2 - (field_bounds f).1 + 1) ∧
  (∀ value, value ∈ field_allowed f ↔
            (field_bounds f).1 ≤ value ≤ (field_bounds f).2) ∧
  StronglySorted Z.lt (field_allowed f) ∧
  NoDup (field_allowed f).
Proof.
  assert (field_allowed f
    = seqZ (field_bounds f).1 ((field_bounds f).2 - (field_bounds f).1 + 1))
    as Hseq by (by destruct f).
  assert (_parse_expression "*" (field_allowed f) (field_aliases f)
    = Ok (field_allowed f)) as Hexpand by (destruct f; by vm_compute).
  split_and!.
  - destruct f; by vm_compute.
  - destruct f; by vm_compute.
  - exact Hexpand.
  - exact Hseq.
  - intros value. rewrite Hseq, elem_of_seqZ. lia.
  - apply _parse_expression_Ok_inv in Hexpand as (result & _ & ->).
    apply sorted_strictly_ascending.
  - rewrite Hseq. apply NoDup_seqZ.
Qed.

(** C3: [parse] fails with the invalid-expression [ValueError] whenever a
    sub-token of any field has step 0, and whenever it has a step greater
    than or equal to the length of the allowed range of that field; so
    [*/0 * * * *] and [*/65 * * * *] are rejected. *)
Theorem parse_rejects_bad_step
    (expression : string) (f : field) (part value_expr : string) (step_expr : Z) :
  part ∈ sub_tokens (field_token f (Py.split_ws expression)) →
  _expr_to_parts part = Ok (value_expr, step_expr) →
  step_expr = 0 ∨ Py.len (field_allowed f) ≤ step_expr →
  parse expression
  = Raise (ValueError (Py.repr expression +:+ " is not valid cron expression.")).
Proof.
  intros Hin Hparts Hstep. apply (parse_part_fails expression f part Hin).
  by eapply _parse_part_bad_step; [apply field_allowed_nonempty|..].
Qed.

Lemma parse_rejects_bad_step_witness :
  parse "*/0 * * * *"
    = Raise (ValueError "'*/0 * * * *' is not valid cron expression.") ∧
  parse "*/65 * * * *"
    = Raise (ValueError "'*/65 * * * *' is not valid cron expression.") ∧
  parse "0 0 * 3,1-6/12 *"
    = Raise (ValueError "'0 0 * 3,1-6/12 *' is not valid cron expression.").
Proof.
  split; [|split].
  - apply (parse_rejects_bad_step "*/0 * * * *" Minute "*/0" "*" 0).
    + list_member.
    + by vm_compute.
    + left. reflexivity.
  - apply (parse_rejects_bad_step "*/65 * * * *" Minute "*/65" "*" 65).
    + list_member.
    + by vm_compute.
    + right. by vm_compute.
  - apply (parse_rejects_bad_step "0 0 * 3,1-6/12 *" Month "1-6/12" "1-6" 12).
    + list_member.
    + by vm_compute.
    + right. by vm_compute.
Defined.

(** C4: [parse] fails for every expression whose number of white-space
    separated tokens is not exactly 5, and every failure of [parse],
    whatever its cause, is a [ValueError] whose message is the repr of the
    whole expression followed by " is not valid cron expression.". *)
Theorem parse_failure_message (expression : string) :
  (Py.len (Py.split_ws expression) ≠ 5 →
   parse expression
   = Raise (ValueError (Py.repr expression +:+ " is not valid cron expression.")))
  ∧
  (∀ e, parse expression = Raise e →
        e = ValueError (Py.repr expression +:+ " is not valid cron expression.")).
Proof.
  split.
  - apply parse_wrong_count.
  - intros e Hrun.
    destruct (parse_outcome expression) as [[schedule Hok] | Hfail];
      unfold _invalid_cron_expression in *; congruence.
Qed.

Lemma parse_failure_message_witness :
  parse "0 0 1 1 0 extra"
    = Raise (ValueError "'0 0 1 1 0 extra' is not valid cron expression.") ∧
  ∀ e, parse "0 24 * * *" = Raise e →
       e = ValueError "'0 24 * * *' is not valid cron expression.".
Proof.
  split.
  - apply (proj1 (parse_failure_message "0 0 1 1 0 extra")). by vm_compute.
  - apply (proj2 (parse_failure_message "0 24 * * *")).
Defined.

(** C5: for every expression on which [parse] succeeds, the values of
    every field of the schedule are strictly ascending, hence without
    repeats, also when comma-separated sub-tokens overlap. *)
Theorem parse_fields_strictly_ascending
    (expression : string) (schedule : CronSchedule) :
  parse expression = Ok schedule →
  ∀ f, StronglySorted Z.lt (field_values f schedule) ∧
       NoDup (field_values f schedule).
Proof.
  intros Hrun f. apply parse_Ok_inv in Hrun as [_ Hfields].
  specialize (Hfields f).
  apply _parse_expression_Ok_inv in Hfields as (result & _ & ->).
  split; [apply sorted_strictly_ascending | apply sorted_NoDup].
Qed.

Lemma parse_fields_strictly_ascending_witness :
  let schedule := {| minute := [1; 2; 3; 4; 5; 6; 7; 8; 30]; hour := [3; 5];
                     day_of_month := [1; 15]; month := [1; 2; 12];
                     day_of_week := [0; 1; 2; 3] |} in
  parse "30,1-5,3-8,4 5,3,5 15,1 DEC,JAN-FEB,1 0-3,SUN-TUE/2" = Ok schedule ∧
  ∀ f, StronglySorted Z.lt (field_values f schedule) ∧
       NoDup (field_values f schedule).
Proof.
  assert (parse "30,1-5,3-8,4 5,3,5 15,1 DEC,JAN-FEB,1 0-3,SUN-TUE/2"
          = Ok {| minute := [1; 2; 3; 4; 5; 6; 7; 8; 30]; hour := [3; 5];
                  day_of_month := [1; 15]; month := [1; 2; 12];
                  day_of_week := [0; 1; 2; 3] |})
    as Hrun by (by vm_compute).
  split; [exact Hrun|].
  exact (parse_fields_strictly_ascending _ _ Hrun).
Defined.

(** C8: when the base of a sub-token, after alias substitution, is all
    digits, a step other than 1 makes [parse] fail with the
    invalid-expression [ValueError]; with step exactly 1 and a value in
    the allowed range, the sub-token expands to that single value. *)
Theorem literal_base_step
    (expression : string) (f : field) (part value_expr : string) (step_expr : Z) :
  let base := substitute_alias (default ∅ (field_aliases f)) value_expr in
  _expr_to_parts part = Ok (value_expr, step_expr) →
  Py.isdigit base = true →
  (step_expr ≠ 1 →
   part ∈ sub_tokens (field_token f (Py.split_ws expression)) →
   parse expression
   = Raise (ValueError (Py.repr expression +:+ " is not valid cron expression.")))
  ∧
  (step_expr = 1 →
   ∀ value, Py.int base = Ok value → value ∈ field_allowed f →
     _parse_part part (field_allowed f) (field_aliases f) = Ok [value]).
Proof.
  intros base Hparts Hdigit. split.
  - intros Hstep Hin. apply (parse_part_fails expression f part Hin).
    destruct (_parse_part part (field_allowed f) (field_aliases f))
      as [values|e] eqn:Hrun.
    + exfalso. apply _parse_part_Ok_inv in Hrun
        as (value_expr' & step_expr' & Hparts' & _ & Hcases).
      rewrite Hparts in Hparts'. injection Hparts' as <- <-.
      simpl in Hcases. fold base in Hcases.
      destruct Hcases as [(_ & ? & _) | [(? & _) | (? & _)]]; congruence.
    + apply _parse_part_raises in Hrun as [msg ->]; [by eexists|].
      apply field_allowed_nonempty.
  - intros -> value Hvalue Hin. unfold _parse_part. rewrite Hparts. simpl.
    replace (Py.len (field_allowed f) <=? 1) with false by (by destruct f).
    fold base. rewrite Hdigit, Hvalue. simpl.
    unfold Py.mem. by rewrite bool_decide_eq_true_2.
Qed.

Lemma literal_base_step_witness :
  parse "5/2 * * * *"
    = Raise (ValueError "'5/2 * * * *' is not valid cron expression.") ∧
  parse "* * * FEB/3 *"
    = Raise (ValueError "'* * * FEB/3 *' is not valid cron expression.") ∧
  _parse_part "07" (field_allowed Hour) (field_aliases Hour) = Ok [7] ∧
  _parse_part "FRI/1" (field_allowed DayOfWeek) (field_aliases DayOfWeek) = Ok [5].
Proof.
  split_and!.
  - apply (proj1 (literal_base_step "5/2 * * * *" Minute "5/2" "5" 2
                    ltac:(by vm_compute) ltac:(by vm_compute)));
      [lia | list_member].
  - apply (proj1 (literal_base_step "* * * FEB/3 *" Month "FEB/3" "FEB" 3
                    ltac:(by vm_compute) ltac:(by vm_compute)));
      [lia | list_member].
  - apply (proj2 (literal_base_step "* 07 * * *" Hour "07" "07" 1
                    ltac:(by vm_compute) ltac:(by vm_compute)));
      [reflexivity | by vm_compute | list_member].
  - apply (proj2 (literal_base_step "* * * * FRI/1" DayOfWeek "FRI/1" "FRI" 1
                    ltac:(by vm_compute) ltac:(by vm_compute)));
      [reflexivity | by vm_compute | list_member].
Defined.

(** C9: for every input string, [parse] either returns a schedule or
    raises the one normalized [ValueError] for the whole expression; no
    exception of another class leaves [parse]. *)
Theorem parse_returns_or_raises_invalid_expression (expression : string) :
  (∃ schedule, parse expression = Ok schedule) ∨
  parse expression
  = Raise (ValueError (Py.repr expression +:+ " is not valid cron expression.")).
Proof. apply parse_outcome. Qed.

(** Every key of the two alias tables is made of letters. *)
Lemma alias_keys_letters f transform_map key index :
  field_aliases f = Some transform_map →
  transform_map !! key = Some index → letters key = true.
Proof.
  intros Hf Hkey.
  destruct f; try discriminate Hf; injection Hf as <-;
    apply elem_of_list_to_map_2 in Hkey;
    repeat (apply elem_of_cons in Hkey as [[= -> _] | Hkey]; [reflexivity|]);
    by apply elem_of_nil in Hkey.
Qed.

Lemma miscased_inv f transform_map name :
  field_aliases f = Some transform_map →
  miscased transform_map name = true →
  transform_map !! name = None ∧ letters name = true.
Proof.
  intros Hf [Hnone Hupper]%andb_prop.
  apply bool_decide_eq_true_1 in Hnone, Hupper. split; [done|].
  destruct Hupper as [index Hindex].
  apply letters_upper_inv. by eapply alias_keys_letters.
Qed.

(** A sub-token that names a wrongly cased alias is rejected. *)
Lemma _parse_part_miscased f transform_map part value_expr step_expr :
  field_aliases f = Some transform_map →
  _expr_to_parts part = Ok (value_expr, step_expr) →
  uses_miscased_alias transform_map value_expr = true →
  is_ValueError (_parse_part part (field_allowed f) (field_aliases f)).
Proof.
  intros Hf Hparts Huses.
  destruct (_parse_part part (field_allowed f) (field_aliases f))
    as [values|e] eqn:Hrun;
    [|apply _parse_part_raises in Hrun as [msg ->];
      [by eexists | apply field_allowed_nonempty]].
  exfalso. apply _parse_part_Ok_inv in Hrun
    as (value_expr' & step_expr' & Hparts' & _ & Hcases).
  rewrite Hparts in Hparts'. injection Hparts' as <- <-.
  rewrite Hf in Hcases. simpl in Hcases.
  apply orb_prop in Huses as [Hbase | Hrange].
  - (* the base is the wrongly cased name *)
    destruct (miscased_inv f transform_map value_expr Hf Hbase) as [Hnone Hletters].
    unfold substitute_alias in Hcases at 1 2 3 4 5 6 7. rewrite Hnone in Hcases.
    destruct Hcases as [(Hdigit & _) | [(_ & Hstar & _)
      | (_ & _ & start & end_ & _ & _ & Hsplit & _)]].
    + by rewrite letters_not_isdigit in Hdigit.
    + by rewrite Hstar in Hletters.
    + by rewrite (split_on_no_sep _ _ (letters_no_dash _ Hletters)) in Hsplit.
  - (* the base is a range with a wrongly cased endpoint *)
    destruct (Py.split_on "-" value_expr) as [|start [|end_ [|c l]]] eqn:Hsplit;
      try discriminate Hrange.
    assert (transform_map !! value_expr = None) as Hnone.
    { destruct (transform_map !! value_expr) as [index|] eqn:Hkey; [|done].
      apply (alias_keys_letters f _ _ _ Hf), letters_no_dash,
        (split_on_no_sep "-") in Hkey.
      congruence. }
    unfold substitute_alias in Hcases at 1 2 3 4 5 6 7. rewrite Hnone in Hcases.
    destruct Hcases as [(Hdigit & _) | [(_ & Hstar & _)
      | (_ & _ & start' & end' & first & last & Hsplit' & Hfirst & Hlast & _)]].
    + apply isdigit_no_dash, (split_on_no_sep "-") in Hdigit. congruence.
    + by rewrite Hstar in Hsplit.
    + rewrite Hsplit in Hsplit'. injection Hsplit' as <- <-.
      apply orb_prop in Hrange as [Hbad | Hbad];
        destruct (miscased_inv f transform_map _ Hf Hbad) as [Hkey Hletters];
        apply letters_not_int in Hletters as [msg Hraise];
        unfold substitute_alias in Hfirst, Hlast; rewrite Hkey in *; congruence.
Qed.

(** C10: alias resolution is case-sensitive. A month or day-of-week
    sub-token whose base is an alias name in lower or mixed case (a name
    that is not a key of the table but becomes one when upper-cased),
    alone or as an endpoint of a range, makes [parse] fail with the
    invalid-expression [ValueError]. *)
Theorem miscased_alias_rejected
    (expression : string) (f : field) (transform_map : gmap string Z)
    (part value_expr : string) (step_expr : Z) :
  field_aliases f = Some transform_map →
  part ∈ sub_tokens (field_token f (Py.split_ws expression)) →
  _expr_to_parts part = Ok (value_expr, step_expr) →
  uses_miscased_alias transform_map value_expr = true →
  parse expression
  = Raise (ValueError (Py.repr expression +:+ " is not valid cron expression.")).
Proof.
  intros Hf Hin Hparts Huses. apply (parse_part_fails expression f part Hin).
  by eapply _parse_part_miscased.
Qed.

Lemma miscased_alias_rejected_witness :
  parse "0 0 1 jan *"
    = Raise (ValueError "'0 0 1 jan *' is not valid cron expression.") ∧
  parse "0 0 1 * Sun"
    = Raise (ValueError "'0 0 1 * Sun' is not valid cron expression.") ∧
  parse "0 0 1 3,JAN-mar/2 *"
    = Raise (ValueError "'0 0 1 3,JAN-mar/2 *' is not valid cron expression.").
Proof.
  split_and!.
  - apply (miscased_alias_rejected "0 0 1 jan *" Month MONTH_NAME_TO_INDEX
             "jan" "jan" 1);
      [reflexivity | list_member | by vm_compute | by vm_compute].
  - apply (miscased_alias_rejected "0 0 1 * Sun" DayOfWeek DAY_NAME_TO_INDEX
             "Sun" "Sun" 1);
      [reflexivity | list_member | by vm_compute | by vm_compute].
  - apply (miscased_alias_rejected "0 0 1 3,JAN-mar/2 *" Month
             MONTH_NAME_TO_INDEX "JAN-mar/2" "JAN-mar" 2);
      [reflexivity | list_member | by vm_compute | by vm_compute].
Defined.

(** Malformed tokens of the kinds [parse] must normalize: several [/] or
    [-] separators, an empty sub-token, text that is no number, a
    negative number, a step that is no digit string. *)
Example parse_malformed_tokens :
  Forall (λ expression,
            parse expression = Raise (ValueError (invalid_message expression)))
    ["1/2/3 * * * *"; "1-2-3 * * * *"; "1,,2 * * * *"; ", * * * *";
     "abc * * * *"; "-5 * * * *"; "*/-1 * * * *"; "*/x * * * *"; "/ * * * *";
     "- * * * *"; "1- * * * *"; "** * * * *"; EmptyString;
     "it's * * * *"].
Proof. repeat constructor; by vm_compute. Qed.

End ParserProperties.

(* ================================================================= *)
(** ** Properties of the explainer *)

Section ExplainerProperties.

Lemma _uniform_step_single (value : Z) : _uniform_step [value] = Some 1.
Proof. reflexivity. Qed.

Lemma _is_contiguous_single (value : Z) : _is_contiguous [value] = true.
Proof. reflexivity. Qed.

(** C6 does not hold of the code. With the hour field covering all 24
    hours and a single minute value [m], the time phrase is "Every minute"
    whatever [m] is: a one-element tuple has no neighbouring pairs, so
    [_is_contiguous] holds of it and the test before the one on
    [len(minute) == 1] returns. The phrase "At ... every hour" for a
    single minute is never produced; [5 * * * *] is explained as
    "Every minute.". *)
Theorem single_minute_every_hour_is_every_minute (m : Z) :
  _summarize_full_range_time [m] (field_allowed Hour) = Ok "Every minute" ∧
  _summarize_time [m] (field_allowed Hour) = Ok "Every minute" ∧
  explain (SpecSchedule {| minute := [m];
                           hour := field_allowed Hour;
                           day_of_month := field_allowed DayOfMonth;
                           month := field_allowed Month;
                           day_of_week := field_allowed DayOfWeek |})
    = Ok "Every minute." ∧
  explain (SpecStr "5 * * * *") = Ok "Every minute.".
Proof. split_and!; by vm_compute. Qed.

(** C7: [explain] applied to the expression [15-30 10-12 * * 5] returns
    exactly "Every minute between 10:15 and 12:30 on Friday.": the time
    phrase of the contiguous block pairs the first hour with the first
    minute and the last hour with the last minute, the only calendar
    qualifier is the one of the single day of week, and the sentence ends
    in a period. *)
Theorem explain_contiguous_block_on_friday :
  let minutes := seqZ 15 16 in
  let hours := [10; 11; 12] in
  parse "15-30 10-12 * * 5"
    = Ok {| minute := minutes; hour := hours;
            day_of_month := field_allowed DayOfMonth;
            month := field_allowed Month;
            day_of_week := [5] |} ∧
  _summarize_contiguous_times minutes hours
    = Ok ("Every minute between " +:+ _format_time 10 15 +:+ " and "
          +:+ _format_time 12 30) ∧
  _summarize_time minutes hours = Ok "Every minute between 10:15 and 12:30" ∧
  _summarize_non_full_dow [] [5] = Ok ["on Friday"] ∧
  _summarize_calendar (field_allowed DayOfMonth) (field_allowed Month) [5]
    = Ok ["on Friday"] ∧
  explain (SpecStr "15-30 10-12 * * 5")
    = Ok "Every minute between 10:15 and 12:30 on Friday.".
Proof. split_and!; by vm_compute. Qed.

End ExplainerProperties.

(* ================================================================= *)
(** ** The test suite of the package, replayed on the embedding *)

Section TestSuite.

Example test_cron_parser_valid :
  parsed "0 0 1 1 0" = Ok [[0]; [0]; [1]; [1]; [0]] ∧
  parsed "* * * * *"
    = Ok [Py.range2 0 60; Py.range2 0 24; Py.range2 1 32; Py.range2 1 13;
          Py.range2 0 7] ∧
  parsed "*/15 0-12/6 1,15 1-3 1-5/2"
    = Ok [[0; 15; 30; 45]; [0; 6; 12]; [1; 15]; [1; 2; 3]; [1; 3; 5]] ∧
  parsed "5,10-20/5 8,20 10-12 4,6-8 0,2-4"
    = Ok [[5; 10; 15; 20]; [8; 20]; [10; 11; 12]; [4; 6; 7; 8]; [0; 2; 3; 4]] ∧
  parsed "30 14 * * 1-5"
    = Ok [[30]; [14]; Py.range2 1 32; Py.range2 1 13; [1; 2; 3; 4; 5]] ∧
  parsed "0 */8 */2 */3 *"
    = Ok [[0]; [0; 8; 16]; [1; 3; 5; 7; 9; 11; 13; 15; 17; 19; 21; 23; 25; 27;
          29; 31]; [1; 4; 7; 10]; Py.range2 0 7] ∧
  parsed "15,45 6-18/6 5,10-20/5 2,4,6 0,6"
    = Ok [[15; 45]; [6; 12; 18]; [5; 10; 15; 20]; [2; 4; 6]; [0; 6]] ∧
  parsed "0 6 10 JAN,FEB,MAR 1" = Ok [[0]; [6]; [10]; [1; 2; 3]; [1]] ∧
  parsed "0 9 15 APR-JUN/2 0" = Ok [[0]; [9]; [15]; [4; 6]; [0]] ∧
  parsed "45 18 1 JAN-DEC/3 0-6/2"
    = Ok [[45]; [18]; [1]; [1; 4; 7; 10]; [0; 2; 4; 6]] ∧
  parsed "15-20 10-12 1-3 1-5 1-5/2"
    = Ok [[15; 16; 17; 18; 19; 20]; [10; 11; 12]; [1; 2; 3]; [1; 2; 3; 4; 5];
          [1; 3; 5]].
Proof. split_and!; by vm_compute. Qed.

Example test_cron_parser_invalid :
  Forall (λ expression,
            parse expression = Raise (ValueError (invalid_message expression)))
    ["0 0"; "0 0 1 1 0 extra"; "0 24 * * *"; "0 -1 * * *"; "0 0 32 * *";
     "0 0 1 13 *"; "0 0 1 JANUARY *"; "0 0 1 * MONDAY"; "*/65 * * * *";
     "*/0 * * * *"].
Proof. repeat constructor; by vm_compute. Qed.

Example test_explain_examples :
  Forall (λ '(expression, expected), explain (SpecStr expression) = Ok expected)
    [("* * * * *", "Every minute.");
     ("*/5 * * * *", "Every 5 minutes.");
     ("0 8 1 * *", "At 08:00 on the 1st of each month.");
     ("*/15 9-17 * 1-3 1-5",
      "Every 15 minutes from 09:00 to 17:59 on weekdays during January to March.");
     ("0 8 * * *", "Every day at 08:00.");
     ("*/3 * * * *", "Every 3 minutes.");
     ("0 9,17 * * 1,3,5", "At 09:00 and 17:00 on Monday, Wednesday and Friday.");
     ("0 8 1,15 * *", "At 08:00 on the 1st and 15th of each month.");
     ("0 8 * 6-8 *", "At 08:00 during June to August.")].
Proof. repeat constructor; by vm_compute. Qed.

End TestSuite.

(* ================================================================= *)
(** ** Further properties of the field expander *)

Section FieldExpander.

(** The items of an ascending [range]. *)
Lemma elem_of_range start stop step values x :
  0 < step → Py.range start stop step = Ok values →
  x ∈ values ↔ start ≤ x < stop ∧ (x - start) `mod` step = 0.
Proof.
  intros Hstep. unfold Py.range.
  destruct (Z.eqb_spec step 0) as [->|_]; [lia|]. intros [= <-].
  rewrite list_elem_of_fmap. setoid_rewrite elem_of_seqZ.
  unfold Py.range_length. rewrite (proj2 (Z.ltb_lt 0 step) Hstep).
  destruct (Z.ltb_spec start stop) as [Hlt|Hge].
  - pose proof (Z.div_mod (stop - start - 1) step ltac:(lia)) as Hdm.
    pose proof (Z.mod_pos_bound (stop - start - 1) step Hstep) as Hmod.
    split.
    + intros (i & -> & Hi). split; [nia|].
      replace (start + i * step - start) with (i * step) by lia.
      apply Z.mod_mul. lia.
    + intros [Hx Hdiv]. apply Z.mod_divide in Hdiv as [i Hi]; [|lia].
      exists i. split; [lia|]. nia.
  - split; [intros (i & _ & Hi); lia | lia].
Qed.

(** The first and the last item of a tuple belong to it. *)
Lemma head_elem_of (t : list Z) x : head t = Some x → x ∈ t.
Proof. destruct t; [done|]. intros [= ->]. apply list_elem_of_here. Qed.

Lemma last_elem_of (t : list Z) x : last t = Some x → x ∈ t.
Proof.
  intros Hlast. apply last_Some in Hlast as [t' ->].
  apply elem_of_app. right. apply list_elem_of_here.
Qed.

Lemma _parse_part_progression part allowed transform_map values :
  _parse_part part allowed transform_map = Ok values →
  ∃ first last step,
    first ∈ allowed ∧ last ∈ allowed ∧ 0 < step < Py.len allowed ∧
    Py.range first (last + 1) step = Ok values ∧
    ∀ v, v ∈ values ↔ first ≤ v ≤ last ∧ (v - first) `mod` step = 0.
Proof.
  intros Hrun. apply _parse_part_Ok_inv in Hrun
    as (value_expr & step_expr & Hparts & Hlt & Hcases).
  pose proof (_expr_to_parts_step_nonneg _ _ _ Hparts) as Hnonneg.
  assert (∀ first last,
            Py.range first (last + 1) step_expr = Ok values →
            0 < step_expr ∧
            ∀ v, v ∈ values ↔ first ≤ v ≤ last ∧ (v - first) `mod` step_expr = 0)
    as Hrange.
  { intros first last Hr.
    assert (0 < step_expr) as Hpos.
    { destruct (Z.eq_dec step_expr 0) as [->|]; [|lia].
      destruct (range_zero_step first (last + 1)) as [msg Hz]. congruence. }
    split; [done|]. intros v.
    rewrite (elem_of_range _ _ _ _ v Hpos Hr). lia. }
  destruct Hcases as [(_ & -> & value & _ & Hin & ->)
    | [(_ & _ & lo & hi & Hlo & Hhi & Hr)
    | (_ & _ & start & end_ & first & last & _ & _ & _ & Hfirst & Hlast & Hr)]].
  - exists value, value, 1.
    assert (Py.range value (value + 1) 1 = Ok [value]) as Hr.
    { unfold Py.range, Py.range_length.
      change (1 =? 0) with false. change (0 <? 1) with true. cbv iota.
      rewrite (proj2 (Z.ltb_lt value (value + 1))) by lia.
      replace ((value + 1 - value - 1) `div` 1 + 1) with 1
        by (rewrite Z.div_1_r; lia).
      change (seqZ 0 1) with [0]. rewrite list_fmap_singleton.
      do 2 f_equal. lia. }
    destruct (Hrange value value Hr) as [_ Hmem].
    split_and!; [done | done | lia | done | done | done].
  - destruct (Hrange lo hi Hr) as [Hpos Hmem].
    exists lo, hi, step_expr.
    split_and!;
      [by apply head_elem_of | by apply last_elem_of | done | done | done | done].
  - destruct (Hrange first last Hr) as [Hpos Hmem].
    exists first, last, step_expr. by split_and!.
Qed.

(** X1: every sub-token that [_parse_part] accepts denotes an arithmetic
    progression: there are two values of the allowed range, [first] and
    [last], and a step between 1 and the size of the range (excluded),
    such that the result is [range(first, last + 1, step)], that is, the
    values [first], [first + step], ... up to [last]. *)
Theorem _parse_part_is_progression
    (part : string) (allowed : list Z) (transform_map : option (gmap string Z))
    (values : list Z) :
  _parse_part part allowed transform_map = Ok values →
  ∃ first last step,
    first ∈ allowed ∧ last ∈ allowed ∧ 0 < step < Py.len allowed ∧
    Py.range first (last + 1) step = Ok values ∧
    ∀ v, v ∈ values ↔ first ≤ v ≤ last ∧ (v - first) `mod` step = 0.
Proof. apply _parse_part_progression. Qed.

Lemma _parse_part_is_progression_witness :
  ∃ first last step,
    first ∈ field_allowed Minute ∧ last ∈ field_allowed Minute ∧
    0 < step < Py.len (field_allowed Minute) ∧
    Py.range first (last + 1) step = Ok [10; 15; 20] ∧
    ∀ v, v ∈ [10; 15; 20] ↔ first ≤ v ≤ last ∧ (v - first) `mod` step = 0.
Proof.
  apply (_parse_part_is_progression "10-20/5" (field_allowed Minute) None).
  by vm_compute.
Defined.

(** X2: a field that expands is the union of its sub-tokens: a value
    belongs to the result exactly when it belongs to the expansion of
    one of the comma-separated sub-tokens. *)
Theorem _parse_expression_is_union
    (expr : string) (allowed : list Z) (transform_map : option (gmap string Z))
    (values : list Z) :
  _parse_expression expr allowed transform_map = Ok values →
  ∀ v, v ∈ values ↔
       ∃ part part_values,
         part ∈ sub_tokens expr ∧
         _parse_part part allowed transform_map = Ok part_values ∧
         v ∈ part_values.
Proof. apply _parse_expression_elem_of. Qed.

Lemma _parse_expression_is_union_witness :
  7 ∈ [1; 2; 3; 4; 5; 6; 7; 8] ↔
  ∃ part part_values,
    part ∈ sub_tokens "3-8,1-5" ∧
    _parse_part part (field_allowed Hour) None = Ok part_values ∧
    7 ∈ part_values.
Proof.
  apply (_parse_expression_is_union "3-8,1-5" (field_allowed Hour) None
           [1; 2; 3; 4; 5; 6; 7; 8]).
  by vm_compute.
Defined.

Lemma field_allowed_elem_of f v :
  v ∈ field_allowed f ↔ (field_bounds f).1 ≤ v ≤ (field_bounds f).2.
Proof.
  replace (field_allowed f)
    with (seqZ (field_bounds f).1 ((field_bounds f).2 - (field_bounds f).1 + 1))
    by (by destruct f).
  rewrite elem_of_seqZ. lia.
Qed.

Lemma parse_field_in_range expression schedule :
  parse expression = Ok schedule →
  ∀ f v, v ∈ field_values f schedule →
         v ∈ field_allowed f ∧
         (field_bounds f).1 ≤ v ≤ (field_bounds f).2.
Proof.
  intros Hrun f v Hv. apply parse_Ok_inv in Hrun as [_ Hfields].
  specialize (Hfields f).
  apply (_parse_expression_elem_of _ _ _ _ Hfields) in Hv
    as (part & values & _ & Hpart & Hv).
  apply _parse_part_progression in Hpart
    as (first & last & step & Hfirst & Hlast & _ & _ & Hmem).
  apply Hmem in Hv as [Hv _].
  apply field_allowed_elem_of in Hfirst, Hlast.
  assert ((field_bounds f).1 ≤ v ≤ (field_bounds f).2) by lia.
  split; [by apply field_allowed_elem_of | done].
Qed.

(** X3: every value of every field of a parsed schedule lies in the
    allowed range of the field: minutes in 0..59, hours in 0..23, days
    of the month in 1..31, months in 1..12, days of the week in 0..6. *)
Theorem parse_values_in_range
    (expression : string) (schedule : CronSchedule) :
  parse expression = Ok schedule →
  ∀ f v, v ∈ field_values f schedule →
         v ∈ field_allowed f ∧
         (field_bounds f).1 ≤ v ≤ (field_bounds f).2.
Proof. apply parse_field_in_range. Qed.

Lemma parse_values_in_range_witness :
  40 ∈ field_allowed Minute ∧
  (field_bounds Minute).1 ≤ 40 ≤ (field_bounds Minute).2.
Proof.
  apply (parse_values_in_range "*/20 9-11 1,15 JAN-MAR 1-5/2"
           {| minute := [0; 20; 40]; hour := [9; 10; 11];
              day_of_month := [1; 15]; month := [1; 2; 3];
              day_of_week := [1; 3; 5] |} ltac:(by vm_compute) Minute 40).
  list_member.
Defined.

(** On an empty range [_parse_part] raises nothing but [ValueError]: the
    test on the step rejects every token before [allowed[0]] is read. *)
Lemma _parse_part_raises_empty part transform_map e :
  _parse_part part [] transform_map = Raise e → ∃ msg, e = ValueError msg.
Proof.
  unfold _parse_part. intros H.
  apply bind_Raise in H as [H | ([value_expr step_expr] & Hparts & H)];
    [by apply _expr_to_parts_raises in H|].
  apply _expr_to_parts_step_nonneg in Hparts. cbn beta iota in H.
  replace (Py.len [] <=? step_expr) with true in H
    by (symmetry; apply Z.leb_le; unfold Py.len; simpl; lia).
  injection H as <-. by eexists.
Qed.

Lemma _parse_expression_loop_raises_empty parts transform_map acc e :
  _parse_expression_loop parts [] transform_map acc = Raise e →
  ∃ msg, e = ValueError msg.
Proof.
  revert acc. induction parts as [|p parts IH]; intros acc H; simpl in H; [done|].
  apply bind_Raise in H as [H | (values & _ & H)].
  - by apply _parse_part_raises_empty in H.
  - by apply IH in H.
Qed.

(** X4: when a token does not expand under the range of one of the five
    cron fields, [_parse_expression] raises the [ValueError] that quotes
    the whole field token (not the sub-token at fault); and under an
    empty allowed tuple every token is rejected with that [ValueError]:
    the test on the step fires before [allowed[0]] is read. *)
Theorem _parse_expression_failure
    (f : field) (expr : string) (transform_map : option (gmap string Z)) :
  (∀ e, _parse_expression expr (field_allowed f) transform_map = Raise e →
        e = ValueError (Py.repr expr +:+ " is not valid cron expression.")) ∧
  _parse_expression expr [] transform_map
  = Raise (ValueError (Py.repr expr +:+ " is not valid cron expression.")).
Proof.
  split.
  - intros e H.
    destruct (_parse_expression_outcome expr (field_allowed f) transform_map
                (field_allowed_nonempty f)) as [[values Hok] | Hfail];
      unfold _invalid_cron_expression in *; congruence.
  - destruct (_parse_expression expr [] transform_map) as [values|e] eqn:Hrun.
    + exfalso. apply _parse_expression_Ok_inv in Hrun as (result & Hloop & _).
      apply _parse_expression_loop_Ok_inv in Hloop as [_ Hparts].
      destruct (Hparts (hd EmptyString (sub_tokens expr))) as (vs & Hvs & _).
      { unfold sub_tokens. destruct expr as [|c expr]; simpl;
          [apply list_elem_of_here|].
        destruct (Ascii.eqb c ","); [apply list_elem_of_here|].
        destruct (Py.split_on "," expr); apply list_elem_of_here. }
      apply _parse_part_Ok_inv in Hvs as (? & step & Hparts' & Hlt & _).
      apply _expr_to_parts_step_nonneg in Hparts'.
      unfold Py.len in Hlt. simpl in Hlt. lia.
    + f_equal. unfold _parse_expression in Hrun.
      destruct (_parse_expression_loop _ _ _ _) as [r|e'] eqn:Hloop; [done|].
      apply _parse_expression_loop_raises_empty in Hloop as [msg ->].
      simpl in Hrun. unfold _invalid_cron_expression in Hrun. congruence.
Qed.

Lemma _parse_expression_failure_witness :
  (∀ e, _parse_expression "1,x,3" (field_allowed Hour) None = Raise e →
        e = ValueError "'1,x,3' is not valid cron expression.") ∧
  _parse_expression "*" [] None
  = Raise (ValueError "'*' is not valid cron expression.").
Proof.
  split.
  - apply (proj1 (_parse_expression_failure Hour "1,x,3" None)).
  - apply (proj2 (_parse_expression_failure Hour "*" None)).
Defined.

(** The loop succeeds when every sub-token does. *)
Lemma _parse_expression_loop_Ok parts allowed transform_map acc :
  (∀ part, part ∈ parts →
     ∃ values, _parse_part part allowed transform_map = Ok values) →
  ∃ result, _parse_expression_loop parts allowed transform_map acc = Ok result.
Proof.
  revert acc. induction parts as [|p parts IH]; intros acc Hparts; simpl.
  - by eexists.
  - destruct (Hparts p) as [values ->]; [apply list_elem_of_here|]. simpl.
    apply IH. intros part Hin. apply Hparts. by apply list_elem_of_further.
Qed.

(** X5: the order and the repetition of the comma-separated sub-tokens
    do not matter: two field tokens with the same sub-tokens expand to
    the same values. *)
Theorem sub_token_order_irrelevant
    (expr1 expr2 : string) (allowed : list Z)
    (transform_map : option (gmap string Z)) (values : list Z) :
  (∀ part, part ∈ sub_tokens expr1 ↔ part ∈ sub_tokens expr2) →
  _parse_expression expr1 allowed transform_map = Ok values →
  _parse_expression expr2 allowed transform_map = Ok values.
Proof.
  intros Hsame Hrun.
  apply _parse_expression_Ok_inv in Hrun as (result1 & Hloop1 & ->).
  pose proof (_parse_expression_loop_Ok_inv _ _ _ _ _ Hloop1) as [_ Hparts1].
  destruct (_parse_expression_loop_Ok (sub_tokens expr2) allowed transform_map ∅)
    as [result2 Hloop2].
  { intros part Hin. apply Hsame in Hin.
    destruct (Hparts1 part Hin) as (vs & Hvs & _). eauto. }
  unfold _parse_expression. fold (sub_tokens expr2). rewrite Hloop2. simpl.
  do 2 f_equal. apply set_eq. intros v.
  rewrite (_parse_expression_loop_elem_of _ _ _ _ _ Hloop1 v),
    (_parse_expression_loop_elem_of _ _ _ _ _ Hloop2 v).
  by setoid_rewrite Hsame.
Qed.

Lemma sub_token_order_irrelevant_witness :
  _parse_expression "SAT,1-3,MON" (field_allowed DayOfWeek)
    (field_aliases DayOfWeek) = Ok [1; 2; 3; 6] ∧
  _parse_expression "1-3,SAT,MON,SAT" (field_allowed DayOfWeek)
    (field_aliases DayOfWeek) = Ok [1; 2; 3; 6].
Proof.
  assert (_parse_expression "SAT,1-3,MON" (field_allowed DayOfWeek)
            (field_aliases DayOfWeek) = Ok [1; 2; 3; 6]) as Hrun
    by (by vm_compute).
  split; [exact Hrun|].
  apply (sub_token_order_irrelevant "SAT,1-3,MON" "1-3,SAT,MON,SAT" _ _ _);
    [|exact Hrun].
  intros part. vm_compute sub_tokens. rewrite !elem_of_cons, !elem_of_nil. tauto.
Defined.

(** X6: the decimal text of a value of the allowed range of a field
    expands to exactly that value, in each of the five fields. *)
Theorem literal_round_trip (f : field) (v : Z) :
  v ∈ field_allowed f →
  _parse_expression (Py.str v) (field_allowed f) (field_aliases f) = Ok [v].
Proof.
  revert v. apply Forall_forall.
  destruct f; repeat constructor; vm_compute; reflexivity.
Qed.

Lemma literal_round_trip_witness :
  _parse_expression (Py.str 31) (field_allowed DayOfMonth)
    (field_aliases DayOfMonth) = Ok [31].
Proof. apply (literal_round_trip DayOfMonth 31). list_member. Defined.

(** X7: every alias of the month and day-of-week tables is accepted in
    its field, stands for a value of the allowed range, and expands to
    that value; and it is the upper-cased first three letters of the full
    name the explainer prints for that value. *)
Theorem alias_expands_to_its_index
    (f : field) (transform_map : gmap string Z) (name : string) (index : Z) :
  field_aliases f = Some transform_map →
  transform_map !! name = Some index →
  index ∈ field_allowed f ∧
  _parse_expression name (field_allowed f) (field_aliases f) = Ok [index] ∧
  ∃ full_name, field_names f !! index = Some full_name ∧
               abbreviation full_name = name.
Proof.
  intros Hf Hkey.
  destruct f; try discriminate Hf; injection Hf as <-;
    apply elem_of_list_to_map_2 in Hkey;
    repeat (apply elem_of_cons in Hkey as [[= -> ->] | Hkey];
            [split_and!; [list_member | by vm_compute | by eexists]|]);
    by apply elem_of_nil in Hkey.
Qed.

Lemma alias_expands_to_its_index_witness :
  9 ∈ field_allowed Month ∧
  _parse_expression "SEP" (field_allowed Month) (field_aliases Month) = Ok [9] ∧
  ∃ full_name, field_names Month !! 9 = Some full_name ∧
               abbreviation full_name = "SEP".
Proof.
  apply (alias_expands_to_its_index Month MONTH_NAME_TO_INDEX "SEP" 9);
    reflexivity.
Defined.

(** Every range token of a field, checked by evaluation over the finite
    range of the field. *)
Lemma range_tokens_checked f :
  forallb (λ first,
    forallb (λ last,
      implb (first <=? last)
        match _parse_expression (Py.str first +:+ "-" +:+ Py.str last)
                (field_allowed f) (field_aliases f) with
        | Ok values => bool_decide (values = seqZ first (last - first + 1))
        | Raise _ => false
        end) (field_allowed f)) (field_allowed f) = true.
Proof. destruct f; by vm_compute. Qed.

(** X21: a range token [a-b] between two values of the allowed range of
    a field, with [a] not above [b], expands to the inclusive run
    [a, a+1, ..., b]. *)
Theorem range_token_round_trip (f : field) (first last : Z) :
  first ∈ field_allowed f → last ∈ field_allowed f → first ≤ last →
  _parse_expression (Py.str first +:+ "-" +:+ Py.str last)
    (field_allowed f) (field_aliases f)
  = Ok (seqZ first (last - first + 1)).
Proof.
  intros Hfirst Hlast Hle.
  pose proof (range_tokens_checked f) as Hall.
  rewrite forallb_forall in Hall.
  apply list_elem_of_In, Hall in Hfirst. rewrite forallb_forall in Hfirst.
  apply list_elem_of_In, Hfirst in Hlast.
  rewrite (proj2 (Z.leb_le first last) Hle) in Hlast. simpl in Hlast.
  destruct (_parse_expression _ _ _) as [values|e]; [|done].
  by apply bool_decide_eq_true_1 in Hlast as ->.
Qed.

Lemma range_token_round_trip_witness :
  _parse_expression "28-31" (field_allowed DayOfMonth)
    (field_aliases DayOfMonth) = Ok [28; 29; 30; 31].
Proof.
  apply (range_token_round_trip DayOfMonth 28 31); [list_member..|lia].
Defined.

End FieldExpander.

(* ================================================================= *)
(** ** Further properties of [parse] *)

Section ScheduleParser.

Lemma parse_fields_Ok tokens schedule :
  (∀ f, _parse_expression (field_token f tokens) (field_allowed f)
          (field_aliases f) = Ok (field_values f schedule)) →
  parse_fields tokens = Ok schedule.
Proof.
  intros Hfields. unfold parse_fields.
  rewrite (Hfields Minute), (Hfields Hour), (Hfields DayOfMonth),
    (Hfields Month), (Hfields DayOfWeek).
  by destruct schedule.
Qed.

Lemma parse_Ok_iff expression schedule :
  parse expression = Ok schedule ↔
  length (Py.split_ws expression) = 5%nat ∧
  ∀ f, _parse_expression (field_token f (Py.split_ws expression))
         (field_allowed f) (field_aliases f) = Ok (field_values f schedule).
Proof.
  split; [apply parse_Ok_inv|]. intros [Hcount Hfields].
  rewrite parse_five by (unfold Py.len, EXPECTED_FIELD_COUNT; lia).
  by rewrite (parse_fields_Ok _ _ Hfields).
Qed.

(** X8: the fields are parsed independently of one another: [parse]
    returns a schedule exactly when the expression has five white-space
    separated tokens and each token expands, under the range and alias
    table of its position, to the corresponding field of the schedule. *)
Theorem parse_succeeds_iff_each_field_expands
    (expression : string) (schedule : CronSchedule) :
  parse expression = Ok schedule ↔
  length (Py.split_ws expression) = 5%nat ∧
  ∀ f, _parse_expression (field_token f (Py.split_ws expression))
         (field_allowed f) (field_aliases f) = Ok (field_values f schedule).
Proof. apply parse_Ok_iff. Qed.

(** White space before and after the text does not change its tokens. *)
Lemma split_ws_from_blank cur pad :
  blank pad = true →
  Py.split_ws_from cur pad
  = match cur with
    | [] => []
    | _ => [Py.of_chars (rev cur)]
    end.
Proof.
  unfold blank, Py.chars. revert cur.
  induction pad as [|c pad IH]; intros cur Hpad; [done|].
  cbn [list_ascii_of_string forallb] in Hpad.
  apply andb_prop in Hpad as [Hc Hpad].
  cbn [Py.split_ws_from]. rewrite Hc, (IH [] Hpad). by destruct cur.
Qed.

Lemma split_ws_from_app_blank cur text pad :
  blank pad = true →
  Py.split_ws_from cur (text +:+ pad) = Py.split_ws_from cur text.
Proof.
  intros Hpad. revert cur.
  induction text as [|c text IH]; intros cur.
  - change (EmptyString +:+ pad) with pad. cbn [Py.split_ws_from].
    apply (split_ws_from_blank cur pad Hpad).
  - change (String c text +:+ pad) with (String c (text +:+ pad)).
    cbn [Py.split_ws_from].
    destruct (Py.isspace c); [|apply IH].
    rewrite (IH []). by destruct cur.
Qed.

Lemma split_ws_blank_app pad text :
  blank pad = true → Py.split_ws (pad +:+ text) = Py.split_ws text.
Proof.
  unfold blank, Py.chars, Py.split_ws.
  induction pad as [|c pad IH]; intros Hpad; [done|].
  cbn [list_ascii_of_string forallb] in Hpad.
  apply andb_prop in Hpad as [Hc Hpad].
  change (String c pad +:+ text) with (String c (pad +:+ text)).
  cbn [Py.split_ws_from]. rewrite Hc. by apply IH.
Qed.

(** X9: white space around an expression is ignored: padding a valid
    expression with white space on either side yields the same
    schedule. *)
Theorem parse_ignores_surrounding_whitespace
    (before expression after : string) (schedule : CronSchedule) :
  blank before = true → blank after = true →
  parse expression = Ok schedule →
  parse (before +:+ expression +:+ after) = Ok schedule.
Proof.
  intros Hbefore Hafter Hrun.
  apply parse_Ok_iff. apply parse_Ok_iff in Hrun.
  assert (Py.split_ws (before +:+ expression +:+ after)
          = Py.split_ws expression) as ->; [|done].
  rewrite (split_ws_blank_app _ _ Hbefore).
  by apply split_ws_from_app_blank.
Qed.

Lemma parse_ignores_surrounding_whitespace_witness :
  parse ("  " +:+ "0 9 * * MON-FRI" +:+ " ")
  = Ok {| minute := [0]; hour := [9]; day_of_month := field_allowed DayOfMonth;
          month := field_allowed Month; day_of_week := [1; 2; 3; 4; 5] |}.
Proof.
  apply (parse_ignores_surrounding_whitespace "  " "0 9 * * MON-FRI" " ");
    by vm_compute.
Defined.

End ScheduleParser.

(* ================================================================= *)
(** ** Further properties of the explainer: the predicates on tuples *)

Section TuplePredicates.

Lemma pairwise_cons a b rest :
  pairwise (a :: b :: rest) = (a, b) :: pairwise (b :: rest).
Proof. reflexivity. Qed.

Lemma progression_cons first step n :
  0 < n →
  progression first step n = first :: progression (first + step) step (n - 1).
Proof.
  intros Hn. unfold progression. rewrite seqZ_cons by done.
  rewrite fmap_cons. f_equal; [lia|].
  replace (Z.succ 0) with (1 + 0) by lia.
  rewrite <- fmap_add_seqZ, <- list_fmap_compose.
  apply list_fmap_ext. intros _ i _. simpl. replace (Z.pred n) with (n - 1); lia.
Qed.

Lemma progression_step_one first n : progression first 1 n = seqZ first n.
Proof.
  unfold progression.
  replace (seqZ first n) with (seqZ (first + 0) n) by (f_equal; lia).
  rewrite <- fmap_add_seqZ. apply list_fmap_ext. intros _ i _. lia.
Qed.

(** All neighbouring differences of a tuple are [d] exactly when the
    tuple is the progression by [d] from its first value. *)
Lemma differences_all a rest d :
  Forall (λ '(x, y), y - x = d) (pairwise (a :: rest)) ↔
  a :: rest = progression a d (Py.len (a :: rest)).
Proof.
  revert a. induction rest as [|b rest IH]; intros a.
  - split; [intros _; unfold progression; simpl; f_equal; lia | constructor].
  - rewrite pairwise_cons, Forall_cons, IH.
    rewrite (progression_cons a d (Py.len (a :: b :: rest)))
      by (unfold Py.len; simpl length; lia).
    replace (Py.len (a :: b :: rest) - 1) with (Py.len (b :: rest))
      by (unfold Py.len; simpl length; lia).
    split.
    + intros [Hd Hrest]. replace (a + d) with b by lia. by rewrite <- Hrest.
    + intros [= Hrest]. pose proof Hrest as Hhead.
      rewrite (progression_cons (a + d) d (Py.len (b :: rest))) in Hhead
        by (unfold Py.len; simpl length; lia).
      injection Hhead as -> _. split; [lia|]. done.
Qed.

(** X10: [_is_contiguous] holds exactly of the runs [a, a+1, a+2, ...]:
    the empty tuple and every one-element tuple are contiguous, and a
    longer tuple is when each value is the previous one plus 1. *)
Theorem _is_contiguous_iff_run (values : list Z) :
  _is_contiguous values = true ↔
  values = seqZ (default 0 (head values)) (Py.len values).
Proof.
  destruct values as [|a rest]; [done|]. simpl head. simpl default.
  rewrite <- progression_step_one, <- differences_all.
  unfold _is_contiguous. rewrite forallb_forall, Forall_forall.
  split; intros H [x y] Hin.
  - apply Z.eqb_eq, (H (x, y)). by apply list_elem_of_In.
  - apply Z.eqb_eq, (H (x, y)). by apply list_elem_of_In.
Qed.

Lemma elements_singleton_iff (s : gset Z) d : elements s = [d] ↔ s = {[d]}.
Proof.
  split; [|intros ->; apply elements_singleton].
  intros Hs. apply set_eq. intros x.
  rewrite <- elem_of_elements, Hs, list_elem_of_singleton, elem_of_singleton.
  done.
Qed.

Lemma list_to_set_singleton_iff (l : list Z) d :
  l ≠ [] → (list_to_set l : gset Z) = {[d]} ↔ Forall (λ x, x = d) l.
Proof.
  intros Hl. rewrite Forall_forall. split.
  - intros Hs x Hx. apply (elem_of_singleton (C:=gset Z)). rewrite <- Hs.
    by apply elem_of_list_to_set.
  - intros Hall. apply set_eq. intros x.
    rewrite elem_of_list_to_set, elem_of_singleton. split; [apply Hall|].
    intros ->. destruct l as [|y l]; [done|].
    rewrite <- (Hall y) by apply list_elem_of_here. apply list_elem_of_here.
Qed.

(** X11: [_uniform_step] returns a step [d] in two cases only: for a
    one-element tuple, with [d = 1]; and for a tuple of two or more
    values that is the arithmetic progression by [d] from its first
    value. For the empty tuple and for uneven spacing it returns
    [None]. *)
Theorem _uniform_step_iff_progression (values : list Z) (d : Z) :
  _uniform_step values = Some d ↔
  (∃ v, values = [v] ∧ d = 1) ∨
  (2 ≤ Py.len values ∧
   values = progression (default 0 (head values)) d (Py.len values)).
Proof.
  destruct values as [|a [|b rest]].
  - split; [done|]. intros [(v & [=] & _) | [Hlen _]]. unfold Py.len in Hlen.
    simpl in Hlen. lia.
  - split.
    + intros [= <-]. left. by exists a.
    + intros [(v & _ & ->) | [Hlen _]]; [done|]. unfold Py.len in Hlen.
      simpl in Hlen. lia.
  - transitivity (elements (list_to_set ((λ '(x, y), y - x)
                    <$> pairwise (a :: b :: rest)) : gset Z) = [d]).
    { unfold _uniform_step.
      destruct (elements _) as [|s [|s' l]]; split; intros H;
        by inversion H. }
    rewrite elements_singleton_iff, list_to_set_singleton_iff by done.
    rewrite Forall_fmap.
    transitivity (Forall (λ '(x, y), y - x = d) (pairwise (a :: b :: rest))).
    { apply Forall_proper; [|done]. by intros [x y]. }
    rewrite differences_all. simpl head. simpl default. split.
    + intros H. right. split; [|done]. unfold Py.len. simpl length. lia.
    + intros [(v & [=] & _) | [_ H]]. done.
Qed.

End TuplePredicates.

(* ================================================================= *)
(** ** Further properties of the explainer: the time phrase *)

Section TimePhrase.

#[local] Arguments field_range : simpl never.

Lemma startswith_append prefix rest :
  Py.startswith prefix (prefix +:+ rest) = true.
Proof.
  unfold Py.startswith. induction prefix as [|c prefix IH]; [by destruct rest|].
  change (String c prefix +:+ rest) with (String c (prefix +:+ rest)).
  cbn [String.prefix]. destruct (ascii_dec c c); [done|congruence].
Qed.

(** The goal is that an explicit normal return has the stated shape. *)
Ltac returns :=
  eexists; split;
  [reflexivity
  |first [ reflexivity | exact I
         | unfold telling_phrase; rewrite (startswith_append "Every ");
           reflexivity
         | unfold telling_phrase; rewrite (startswith_append "At ");
           apply orb_true_r ]].

Lemma field_range_key f : field_range (field_key f) = Ok (field_allowed f).
Proof. destruct f; by vm_compute. Qed.

Lemma field_range_hours : field_range "hours" = Ok (field_allowed Hour).
Proof. exact (field_range_key Hour). Qed.

Lemma field_range_day_of_month :
  field_range "day_of_month" = Ok (field_allowed DayOfMonth).
Proof. exact (field_range_key DayOfMonth). Qed.

Lemma field_range_month : field_range "month" = Ok (field_allowed Month).
Proof. exact (field_range_key Month). Qed.

Lemma field_range_day_of_week :
  field_range "day_of_week" = Ok (field_allowed DayOfWeek).
Proof. exact (field_range_key DayOfWeek). Qed.

Lemma first_item_cons x (t : list Z) : Py.first_item (x :: t) = Ok x.
Proof. reflexivity. Qed.

Lemma last_item_cons x (t : list Z) : ∃ y, Py.last_item (x :: t) = Ok y.
Proof. destruct (last_item_Ok (x :: t)) as (y & Hy & _); [done|]. eauto. Qed.

Lemma len_cons_pos {A} (x : A) t : (Py.len (x :: t) =? 0) = false.
Proof. apply Z.eqb_neq. unfold Py.len. simpl length. lia. Qed.

Lemma _summarize_full_range_time_telling minute hour :
  minute ≠ [] →
  ∃ phrase, _summarize_full_range_time minute hour = Ok phrase ∧
            telling_phrase phrase = true.
Proof.
  destruct minute as [|m rest]; [done|]. intros _.
  unfold _summarize_full_range_time.
  destruct (step_above_one _); [returns|].
  destruct (_is_contiguous _); [returns|].
  destruct (_ =? 1); [rewrite first_item_cons; returns|].
  destruct (last_item_cons m rest) as [m_last ->]. returns.
Qed.

Lemma _is_full_stepped_cover_Ok hour step :
  step ≠ 0 → ∃ covered, _is_full_stepped_cover hour (field_allowed Hour) step
                        = Ok covered.
Proof.
  intros Hstep. unfold _is_full_stepped_cover.
  destruct hour as [|first rest]; [by eexists|].
  destruct (negb _); [by eexists|].
  change (Py.last_item (field_allowed Hour)) with (Ok (A:=Z) 23).
  simpl. unfold Py.range. destruct (Z.eqb_spec step 0); [done|]. by eexists.
Qed.

Lemma _summarize_simple_exact_times_telling m hour :
  ∃ summarized, _summarize_simple_exact_times [m] hour = Ok summarized ∧
    match summarized with
    | Some phrase => telling_phrase phrase = true
    | None => True
    end.
Proof.
  unfold _summarize_simple_exact_times.
  change (Py.len [m] =? 1) with true. cbn [negb]. rewrite first_item_cons. cbn [mbind outcome_bind].
  assert (∃ summarized,
            (if Py.len hour =? 1
             then h ← Py.first_item hour; Ok (Some ("At " +:+ _format_time h m))
             else Ok None) = Ok summarized ∧
            match summarized with
            | Some phrase => telling_phrase phrase = true
            | None => True
            end) as Hsingle.
  { destruct (Py.len hour =? 1) eqn:Hlen; [|returns].
    destruct hour as [|h rest]; [done|]. returns. }
  destruct ((m =? 0) && (1 <? Py.len hour)) eqn:Hzero; [|exact Hsingle].
  assert (∃ covered : bool,
            match _uniform_step hour with
            | Some n =>
                if negb (n =? 0) then
                  h0 ← Py.first_item hour;
                  if h0 =? 0 then
                    hours ← field_range "hours";
                    _is_full_stepped_cover hour hours n
                  else Ok false
                else Ok false
            | None => Ok false
            end = Ok covered) as [covered ->].
  { destruct (_uniform_step hour) as [n|]; [|by eexists].
    destruct (Z.eqb_spec n 0) as [|Hn]; [by eexists|]. cbn [negb].
    destruct hour as [|h0 rest]; [by apply andb_prop in Hzero as [_ ?]|].
    rewrite first_item_cons. cbn [mbind outcome_bind].
    destruct (h0 =? 0); [|by eexists].
    rewrite field_range_hours. cbn [mbind outcome_bind].
    by apply _is_full_stepped_cover_Ok. }
  simpl. destruct covered; [returns|].
  destruct (_ <=? _); [returns | exact Hsingle].
Qed.

Lemma _summarize_contiguous_times_telling m minute h hour :
  ∃ phrase, _summarize_contiguous_times (m :: minute) (h :: hour) = Ok phrase ∧
            telling_phrase phrase = true.
Proof.
  unfold _summarize_contiguous_times. rewrite !first_item_cons. cbn [mbind outcome_bind].
  destruct (last_item_cons h hour) as [h_last ->].
  destruct (last_item_cons m minute) as [m_last ->]. cbn [mbind outcome_bind].
  destruct (_ && _); returns.
Qed.

Lemma _summarize_uniform_step_telling minute h hour step :
  ∃ summarized, _summarize_uniform_step minute (h :: hour) step = Ok summarized ∧
    match summarized with
    | Some phrase => telling_phrase phrase = true
    | None => True
    end.
Proof.
  unfold _summarize_uniform_step. rewrite len_cons_pos.
  destruct (_ && _).
  - rewrite first_item_cons. cbn [mbind outcome_bind].
    destruct (last_item_cons h hour) as [h_last ->]. returns.
  - destruct (_ <=? _); returns.
Qed.

(** [_summarize_time] returns a phrase that is empty or begins with
    "Every " or "At ". This is a fact of the embedding, in which printing
    an int cannot fail; the properties below use it on values of the
    field ranges. *)
Lemma _summarize_time_phrase minute hour :
  ∃ phrase, _summarize_time minute hour = Ok phrase ∧
            (phrase = EmptyString ∨ telling_phrase phrase = true).
Proof.
  unfold _summarize_time. rewrite field_range_hours. cbn [mbind outcome_bind].
  match goal with
  | |- context [if _ then _ else if _ then _ else ?later] =>
      assert (∃ phrase, later = Ok phrase ∧
                (phrase = EmptyString ∨ telling_phrase phrase = true))
        as Hlater
  end.
  { destruct (_ && _ && _ && _) eqn:Hblock.
    - destruct minute as [|m minute]; [by destruct (_is_contiguous hour)|].
      destruct hour as [|h hour];
        [by rewrite !andb_false_r in Hblock|].
      destruct (_summarize_contiguous_times_telling m minute h hour)
        as (phrase & -> & Htelling). eauto.
    - destruct (step_above_one _ && _) eqn:Hstep; [|eauto].
      destruct hour as [|h hour]; [by rewrite andb_false_r in Hstep|].
      destruct (_summarize_uniform_step_telling minute h hour
                  (default 0 (_uniform_step minute)))
        as ([phrase|] & -> & Htelling); simpl; eauto. }
  destruct (_is_full_range hour (field_allowed Hour)
            && negb (Py.len minute =? 0)) eqn:Hfull.
  - apply andb_prop in Hfull as [_ Hminute].
    destruct (_summarize_full_range_time_telling minute hour)
      as (phrase & -> & Htelling); [|eauto].
    intros ->. by vm_compute in Hminute.
  - destruct (Py.len minute =? 1) eqn:Hone; [|exact Hlater].
    destruct minute as [|m [|m' minute]];
      [done| |apply Z.eqb_eq in Hone; unfold Py.len in Hone;
              simpl length in Hone; lia].
    destruct (_summarize_simple_exact_times_telling m hour)
      as ([phrase|] & -> & Htelling); simpl; [eauto | exact Hlater].
Qed.

(** X12: [_summarize_time] does not raise on tuples of minute values
    0..59 and hour values 0..23 of any shape, also empty, unsorted or
    with repeats: its assertions and index accesses are guarded, and it
    returns a phrase that is either empty or begins with "Every " or
    "At ". *)
Theorem _summarize_time_total (minute hour : list Z) :
  in_range Minute minute = true → in_range Hour hour = true →
  ∃ phrase, _summarize_time minute hour = Ok phrase ∧
            (phrase = EmptyString ∨
             Py.startswith "Every " phrase = true ∨
             Py.startswith "At " phrase = true).
Proof.
  intros _ _.
  destruct (_summarize_time_phrase minute hour) as (phrase & Hrun & Hshape).
  exists phrase. split; [done|].
  destruct Hshape as [-> | Htelling]; [by left|]. right.
  by apply orb_prop in Htelling.
Qed.

Lemma _summarize_time_total_witness :
  (∃ phrase, _summarize_time [30; 5; 5] [] = Ok phrase ∧
             (phrase = EmptyString ∨
              Py.startswith "Every " phrase = true ∨
              Py.startswith "At " phrase = true)) ∧
  (∃ phrase, _summarize_time [] [23; 0] = Ok phrase ∧
             (phrase = EmptyString ∨
              Py.startswith "Every " phrase = true ∨
              Py.startswith "At " phrase = true)) ∧
  (∃ phrase, _summarize_time [0] [12; 0; 12] = Ok phrase ∧
             (phrase = EmptyString ∨
              Py.startswith "Every " phrase = true ∨
              Py.startswith "At " phrase = true)).
Proof.
  split_and!.
  - apply (_summarize_time_total [30; 5; 5] []); reflexivity.
  - apply (_summarize_time_total [] [23; 0]); reflexivity.
  - apply (_summarize_time_total [0] [12; 0; 12]); reflexivity.
Defined.

End TimePhrase.

(* ================================================================= *)
(** ** Further properties of the explainer: the calendar qualifiers *)

Section CalendarQualifiers.

#[local] Arguments field_range : simpl never.
#[local] Arguments Py.getitem : simpl never.

Lemma prefix_empty s : String.prefix EmptyString s = true.
Proof. by destruct s. Qed.

(** The goal is that a text given by its beginning is a qualifier. *)
Ltac is_qualifier :=
  unfold qualifier, Py.startswith; simpl; rewrite ?prefix_empty; reflexivity.

(** From [H], a normal return of a helper that ends in an append, the
    list returned and the shape of the appended bit. *)
Ltac appended H :=
  repeat (apply bind_Ok in H as (? & ? & H));
  injection H as <-; eexists; split; [reflexivity | is_qualifier].

Lemma _summarize_non_full_dow_appends bits dow bits' :
  _summarize_non_full_dow bits dow = Ok bits' →
  ∃ bit, bits' = append bits bit ∧ qualifier bit = true.
Proof.
  unfold _summarize_non_full_dow. intros H.
  repeat case_match; appended H.
Qed.

Lemma _summarize_non_full_dom_appends bits dom month bits' :
  _summarize_non_full_dom bits dom month = Ok bits' →
  ∃ bit, bits' = append bits bit ∧ qualifier bit = true.
Proof.
  unfold _summarize_non_full_dom. rewrite field_range_month.
  cbn [mbind outcome_bind]. intros H.
  repeat case_match; appended H.
Qed.

Lemma _summarize_non_full_month_appends bits month bits' :
  _summarize_non_full_month bits month = Ok bits' →
  ∃ bit, bits' = append bits bit ∧ qualifier bit = true.
Proof.
  unfold _summarize_non_full_month. intros H.
  repeat case_match; appended H.
Qed.

(** The three steps of [_summarize_calendar], each leaving the list as it
    is for a full field and appending one qualifier otherwise. *)
Lemma _summarize_calendar_steps dom month dow bits :
  _summarize_calendar dom month dow = Ok bits →
  ∃ dow_bits dom_bits month_bits,
    bits = (dow_bits ++ dom_bits ++ month_bits)%list ∧
    Forall (λ bit, qualifier bit = true) bits ∧
    length dow_bits = (if full DayOfWeek dow then 0 else 1)%nat ∧
    length dom_bits = (if full DayOfMonth dom then 0 else 1)%nat ∧
    length month_bits = (if full Month month then 0 else 1)%nat.
Proof.
  unfold _summarize_calendar, full.
  rewrite field_range_day_of_week, field_range_day_of_month, field_range_month.
  cbn [mbind outcome_bind]. intros H.
  apply bind_Ok in H as (bits1 & H1 & H).
  apply bind_Ok in H as (bits2 & H2 & H).
  apply bind_Ok in H as (bits3 & H3 & [= <-]).
  assert (∃ l, bits1 = l ∧ Forall (λ bit, qualifier bit = true) l ∧
               length l = (if _is_full_range dow (field_allowed DayOfWeek)
                           then 0 else 1)%nat) as (l1 & -> & Hq1 & Hl1).
  { destruct (_is_full_range dow _); simpl in H1.
    - injection H1 as <-. by exists [].
    - apply _summarize_non_full_dow_appends in H1 as (bit & -> & Hbit).
      exists [bit]. split_and!; [done | by repeat constructor | done]. }
  assert (∃ l, bits2 = (l1 ++ l)%list ∧ Forall (λ bit, qualifier bit = true) l ∧
               length l = (if _is_full_range dom (field_allowed DayOfMonth)
                           then 0 else 1)%nat) as (l2 & -> & Hq2 & Hl2).
  { destruct (_is_full_range dom _); simpl in H2.
    - injection H2 as <-. exists []. by rewrite app_nil_r.
    - apply _summarize_non_full_dom_appends in H2 as (bit & -> & Hbit).
      exists [bit]. split_and!; [done | by repeat constructor | done]. }
  assert (∃ l, bits3 = ((l1 ++ l2) ++ l)%list ∧
               Forall (λ bit, qualifier bit = true) l ∧
               length l = (if _is_full_range month (field_allowed Month)
                           then 0 else 1)%nat) as (l3 & -> & Hq3 & Hl3).
  { destruct (_is_full_range month _); simpl in H3.
    - injection H3 as <-. exists []. by rewrite app_nil_r.
    - apply _summarize_non_full_month_appends in H3 as (bit & -> & Hbit).
      exists [bit]. split_and!; [done | by repeat constructor | done]. }
  exists l1, l2, l3. rewrite <- app_assoc. split_and!; try done.
  by repeat apply Forall_app_2.
Qed.

(** Each helper appends to the list it is handed what it produces from
    the empty list. *)
Ltac run_binds :=
  repeat first
    [ reflexivity
    | match goal with
      | |- context [mbind _ ?m] =>
          lazymatch m with
          | Ok _ => fail
          | Raise _ => fail
          | mbind _ _ => fail
          | _ => destruct m; cbn [mbind outcome_bind]
          end
      end ].

Lemma _summarize_non_full_dow_from_empty bits dow :
  _summarize_non_full_dow bits dow
  = (own ← _summarize_non_full_dow [] dow; Ok (bits ++ own)%list).
Proof.
  unfold _summarize_non_full_dow.
  repeat case_match; cbn [mbind outcome_bind]; run_binds.
Qed.

Lemma _summarize_non_full_dom_from_empty bits dom month :
  _summarize_non_full_dom bits dom month
  = (own ← _summarize_non_full_dom [] dom month; Ok (bits ++ own)%list).
Proof.
  unfold _summarize_non_full_dom. rewrite field_range_month.
  cbn [mbind outcome_bind].
  repeat case_match; cbn [mbind outcome_bind]; run_binds.
Qed.

Lemma _summarize_non_full_month_from_empty bits month :
  _summarize_non_full_month bits month
  = (own ← _summarize_non_full_month [] month; Ok (bits ++ own)%list).
Proof.
  unfold _summarize_non_full_month.
  repeat case_match; cbn [mbind outcome_bind]; run_binds.
Qed.

(** What each helper returns from the empty list is one qualifier, with
    the first words of its field. *)
Ltac one_bit H :=
  repeat (apply bind_Ok in H as (? & ? & H));
  injection H as <-; eexists; split;
  [reflexivity
  |unfold Py.startswith; simpl; rewrite ?prefix_empty; reflexivity].

Lemma _summarize_non_full_dow_one_bit dow own :
  _summarize_non_full_dow [] dow = Ok own →
  ∃ bit, own = [bit] ∧ Py.startswith "on " bit = true.
Proof.
  unfold _summarize_non_full_dow. intros H. repeat case_match; one_bit H.
Qed.

Lemma _summarize_non_full_dom_one_bit dom month own :
  _summarize_non_full_dom [] dom month = Ok own →
  ∃ bit, own = [bit] ∧
         Py.startswith "on the " bit || Py.startswith "from the " bit = true.
Proof.
  unfold _summarize_non_full_dom. rewrite field_range_month.
  cbn [mbind outcome_bind]. intros H. repeat case_match; one_bit H.
Qed.

Lemma _summarize_non_full_month_one_bit month own :
  _summarize_non_full_month [] month = Ok own →
  ∃ bit, own = [bit] ∧
         Py.startswith "during " bit || Py.startswith "in " bit = true.
Proof.
  unfold _summarize_non_full_month. intros H. repeat case_match; one_bit H.
Qed.

(** X13: when [_summarize_calendar] returns, its list is the
    concatenation, in this order, of the parts of the day of week, the
    day of month and the month. The part of a field that is the full
    range is empty. The part of a field that is not is the one qualifier
    the helper of that field produces for it: [_summarize_non_full_dow]
    for the day of week (beginning "on "), [_summarize_non_full_dom] for
    the day of month (beginning "on the " or "from the "),
    [_summarize_non_full_month] for the month (beginning "during " or
    "in "). So the list is empty exactly when the three fields are
    full. *)
Theorem _summarize_calendar_one_bit_per_restricted_field
    (dom month dow : list Z) (bits : list string) :
  _summarize_calendar dom month dow = Ok bits →
  ∃ dow_bits dom_bits month_bits,
    bits = (dow_bits ++ dom_bits ++ month_bits)%list ∧
    (if full DayOfWeek dow then dow_bits = []
     else ∃ bit, dow_bits = [bit] ∧
                 _summarize_non_full_dow [] dow = Ok [bit] ∧
                 Py.startswith "on " bit = true) ∧
    (if full DayOfMonth dom then dom_bits = []
     else ∃ bit, dom_bits = [bit] ∧
                 _summarize_non_full_dom [] dom month = Ok [bit] ∧
                 Py.startswith "on the " bit || Py.startswith "from the " bit
                 = true) ∧
    (if full Month month then month_bits = []
     else ∃ bit, month_bits = [bit] ∧
                 _summarize_non_full_month [] month = Ok [bit] ∧
                 Py.startswith "during " bit || Py.startswith "in " bit
                 = true) ∧
    (bits = [] ↔
     full DayOfWeek dow = true ∧ full DayOfMonth dom = true ∧
     full Month month = true).
Proof.
  unfold _summarize_calendar, full.
  rewrite field_range_day_of_week, field_range_day_of_month, field_range_month.
  cbn [mbind outcome_bind]. intros H.
  apply bind_Ok in H as (bits1 & H1 & H).
  apply bind_Ok in H as (bits2 & H2 & H).
  apply bind_Ok in H as (bits3 & H3 & [= <-]).
  assert (∃ l, bits1 = l ∧
            if _is_full_range dow (field_allowed DayOfWeek) then l = []
            else ∃ bit, l = [bit] ∧ _summarize_non_full_dow [] dow = Ok [bit] ∧
                        Py.startswith "on " bit = true)
    as (l1 & -> & Hl1).
  { destruct (_is_full_range dow _); simpl in H1.
    - injection H1 as <-. by exists [].
    - pose proof H1 as Hown.
      apply _summarize_non_full_dow_one_bit in Hown as (bit & -> & Hbit).
      exists [bit]. split; [done|]. by exists bit. }
  assert (∃ l, bits2 = (l1 ++ l)%list ∧
            if _is_full_range dom (field_allowed DayOfMonth) then l = []
            else ∃ bit, l = [bit] ∧
                        _summarize_non_full_dom [] dom month = Ok [bit] ∧
                        Py.startswith "on the " bit
                        || Py.startswith "from the " bit = true)
    as (l2 & -> & Hl2).
  { destruct (_is_full_range dom _); simpl in H2.
    - injection H2 as <-. exists []. by rewrite app_nil_r.
    - rewrite _summarize_non_full_dom_from_empty in H2.
      apply bind_Ok in H2 as (own & Hown & [= <-]). pose proof Hown as Hone.
      apply _summarize_non_full_dom_one_bit in Hone as (bit & -> & Hbit).
      exists [bit]. split; [done|]. by exists bit. }
  assert (∃ l, bits3 = ((l1 ++ l2) ++ l)%list ∧
            if _is_full_range month (field_allowed Month) then l = []
            else ∃ bit, l = [bit] ∧
                        _summarize_non_full_month [] month = Ok [bit] ∧
                        Py.startswith "during " bit
                        || Py.startswith "in " bit = true)
    as (l3 & -> & Hl3).
  { destruct (_is_full_range month _); simpl in H3.
    - injection H3 as <-. exists []. by rewrite app_nil_r.
    - rewrite _summarize_non_full_month_from_empty in H3.
      apply bind_Ok in H3 as (own & Hown & [= <-]). pose proof Hown as Hone.
      apply _summarize_non_full_month_one_bit in Hone as (bit & -> & Hbit).
      exists [bit]. split; [done|]. by exists bit. }
  exists l1, l2, l3. rewrite <- app_assoc. split_and!; try done.
  destruct (_is_full_range dow _), (_is_full_range dom _),
    (_is_full_range month _);
    repeat match goal with
           | H : ∃ bit, _ |- _ => destruct H as (? & -> & _)
           | H : _ = [] |- _ => rewrite H
           end;
    split; first [done | intros (? & ? & ?); done].
Qed.

Lemma _summarize_calendar_one_bit_per_restricted_field_witness :
  ∃ dow_bits dom_bits month_bits,
    ["on weekdays"; "during January to March"]
    = (dow_bits ++ dom_bits ++ month_bits)%list ∧
    (if full DayOfWeek [1; 2; 3; 4; 5] then dow_bits = []
     else ∃ bit, dow_bits = [bit] ∧
                 _summarize_non_full_dow [] [1; 2; 3; 4; 5] = Ok [bit] ∧
                 Py.startswith "on " bit = true) ∧
    (if full DayOfMonth (field_allowed DayOfMonth) then dom_bits = []
     else ∃ bit, dom_bits = [bit] ∧
                 _summarize_non_full_dom [] (field_allowed DayOfMonth) [1; 2; 3]
                 = Ok [bit] ∧
                 Py.startswith "on the " bit || Py.startswith "from the " bit
                 = true) ∧
    (if full Month [1; 2; 3] then month_bits = []
     else ∃ bit, month_bits = [bit] ∧
                 _summarize_non_full_month [] [1; 2; 3] = Ok [bit] ∧
                 Py.startswith "during " bit || Py.startswith "in " bit
                 = true) ∧
    (["on weekdays"; "during January to March"] = [] ↔
     full DayOfWeek [1; 2; 3; 4; 5] = true ∧
     full DayOfMonth (field_allowed DayOfMonth) = true ∧
     full Month [1; 2; 3] = true).
Proof.
  apply (_summarize_calendar_one_bit_per_restricted_field
           (field_allowed DayOfMonth) [1; 2; 3] [1; 2; 3; 4; 5]).
  by vm_compute.
Defined.

End CalendarQualifiers.

(* ================================================================= *)
(** ** Further properties of [explain] *)

Section Explain.

#[local] Arguments field_range : simpl never.
#[local] Arguments Py.getitem : simpl never.

Lemma getitem_day_Ok v :
  v ∈ field_allowed DayOfWeek → ∃ name, Py.getitem DAY_INDEX_TO_NAME v = Ok name.
Proof.
  revert v. apply Forall_forall. repeat constructor; by eexists.
Qed.

Lemma getitem_month_Ok v :
  v ∈ field_allowed Month → ∃ name, Py.getitem MONTH_INDEX_TO_NAME v = Ok name.
Proof.
  revert v. apply Forall_forall. repeat constructor; by eexists.
Qed.

Lemma mapM_Ok {A B} (f : A → outcome B) (l : list A) :
  (∀ x, x ∈ l → ∃ y, f x = Ok y) → ∃ ys, mapM f l = Ok ys.
Proof.
  induction l as [|x l IH]; intros Hf; [by eexists|].
  destruct (Hf x) as [y Hy]; [apply list_elem_of_here|].
  destruct IH as [ys Hys]; [intros x' Hx'; apply Hf; by apply list_elem_of_further|].
  exists (y :: ys). simpl. rewrite Hy. simpl. by rewrite Hys.
Qed.

Lemma _summarize_non_full_dow_Ok bits dow :
  dow ≠ [] → (∀ v, v ∈ dow → v ∈ field_allowed DayOfWeek) →
  ∃ bits', _summarize_non_full_dow bits dow = Ok bits'.
Proof.
  intros Hne Hrange.
  assert (∀ v, v ∈ dow → ∃ name, Py.getitem DAY_INDEX_TO_NAME v = Ok name)
    as Hname by (intros v Hv; by apply getitem_day_Ok, Hrange).
  assert (∃ bits',
            (if _is_contiguous dow then
               d_first ← Py.first_item dow;
               first_name ← Py.getitem DAY_INDEX_TO_NAME d_first;
               d_last ← Py.last_item dow;
               last_name ← Py.getitem DAY_INDEX_TO_NAME d_last;
               Ok (append bits ("on " +:+ first_name +:+ " to " +:+ last_name))
             else
               names ← day_names dow;
               Ok (append bits ("on " +:+ _join_list names))) = Ok bits')
    as Hdefault.
  { destruct (_is_contiguous dow).
    - destruct (first_item_Ok dow Hne) as (d_first & -> & Hfirst).
      destruct (last_item_Ok dow Hne) as (d_last & -> & Hlast).
      destruct (Hname d_first) as [first_name Hfn]; [by apply head_elem_of|].
      destruct (Hname d_last) as [last_name Hln]; [by apply last_elem_of|].
      cbn [mbind outcome_bind]. rewrite Hfn. cbn [mbind outcome_bind].
      rewrite Hln. by eexists.
    - destruct (mapM_Ok (Py.getitem DAY_INDEX_TO_NAME) dow Hname) as [names Hn].
      unfold day_names. rewrite Hn. by eexists. }
  unfold _summarize_non_full_dow.
  case_bool_decide; [by eexists|].
  repeat case_match; subst; try done;
    first [ exact Hdefault | by eexists
          | match goal with
            | |- context [Py.getitem DAY_INDEX_TO_NAME ?day] =>
                destruct (Hname day) as [name ->];
                [apply list_elem_of_here | by eexists]
            end ].
Qed.

Lemma _summarize_non_full_dom_Ok bits dom month :
  dom ≠ [] → ∃ bits', _summarize_non_full_dom bits dom month = Ok bits'.
Proof.
  intros Hne. unfold _summarize_non_full_dom. rewrite field_range_month.
  cbn [mbind outcome_bind].
  destruct (first_item_Ok dom Hne) as (d_first & Hfirst & _).
  destruct (last_item_Ok dom Hne) as (d_last & Hlast & _).
  rewrite Hfirst, Hlast. repeat case_match; by eexists.
Qed.

Lemma _summarize_non_full_month_Ok bits month :
  month ≠ [] → (∀ v, v ∈ month → v ∈ field_allowed Month) →
  ∃ bits', _summarize_non_full_month bits month = Ok bits'.
Proof.
  intros Hne Hrange.
  assert (∀ v, v ∈ month → ∃ name, Py.getitem MONTH_INDEX_TO_NAME v = Ok name)
    as Hname by (intros v Hv; by apply getitem_month_Ok, Hrange).
  unfold _summarize_non_full_month. destruct (_is_contiguous month).
  - destruct (first_item_Ok month Hne) as (m_first & -> & Hfirst).
    destruct (last_item_Ok month Hne) as (m_last & -> & Hlast).
    destruct (Hname m_first) as [first_name Hfn]; [by apply head_elem_of|].
    destruct (Hname m_last) as [last_name Hln]; [by apply last_elem_of|].
    cbn [mbind outcome_bind]. rewrite Hfn. cbn [mbind outcome_bind].
    rewrite Hln. by eexists.
  - destruct (mapM_Ok (Py.getitem MONTH_INDEX_TO_NAME) month Hname)
      as [names Hn].
    unfold month_names. rewrite Hn. by eexists.
Qed.

(** A helper handed an empty tuple reads its first item. *)
Lemma _summarize_non_full_dow_empty bits :
  _summarize_non_full_dow bits []
  = Raise (IndexError "tuple index out of range").
Proof. reflexivity. Qed.

Lemma _summarize_non_full_dom_empty bits month :
  _summarize_non_full_dom bits [] month
  = Raise (IndexError "tuple index out of range").
Proof.
  unfold _summarize_non_full_dom. rewrite field_range_month. reflexivity.
Qed.

Lemma _summarize_non_full_month_empty bits :
  _summarize_non_full_month bits []
  = Raise (IndexError "tuple index out of range").
Proof. reflexivity. Qed.

(** The calendar part for a schedule with values in range: it returns
    when the three fields are non-empty, and raises [IndexError] when one
    of them is empty. *)
Lemma _summarize_calendar_in_range dom month dow :
  (∀ v, v ∈ dow → v ∈ field_allowed DayOfWeek) →
  (∀ v, v ∈ month → v ∈ field_allowed Month) →
  if bool_decide (dow ≠ [] ∧ dom ≠ [] ∧ month ≠ [])
  then ∃ bits, _summarize_calendar dom month dow = Ok bits
  else _summarize_calendar dom month dow
       = Raise (IndexError "tuple index out of range").
Proof.
  intros Hdow Hmonth. unfold _summarize_calendar.
  rewrite field_range_day_of_week, field_range_day_of_month, field_range_month.
  cbn [mbind outcome_bind].
  destruct dow as [|d dow'] eqn:Edow.
  { rewrite bool_decide_eq_false_2 by (intros [? _]; done). reflexivity. }
  rewrite <- Edow in *.
  assert (dow ≠ []) as Hdow_ne by (by rewrite Edow).
  assert (∃ bits1, (if negb (_is_full_range dow (field_allowed DayOfWeek))
                    then _summarize_non_full_dow [] dow else Ok [])
                   = Ok bits1) as [bits1 ->].
  { destruct (negb _); [by apply _summarize_non_full_dow_Ok | by eexists]. }
  cbn [mbind outcome_bind].
  destruct dom as [|d' dom'] eqn:Edom.
  { rewrite bool_decide_eq_false_2 by (intros (_ & ? & _); done).
    change (negb (_is_full_range [] (field_allowed DayOfMonth))) with true.
    cbv iota. by rewrite _summarize_non_full_dom_empty. }
  rewrite <- Edom in *.
  assert (dom ≠ []) as Hdom_ne by (by rewrite Edom).
  assert (∃ bits2, (if negb (_is_full_range dom (field_allowed DayOfMonth))
                    then _summarize_non_full_dom bits1 dom month else Ok bits1)
                   = Ok bits2) as [bits2 ->].
  { destruct (negb _); [by apply _summarize_non_full_dom_Ok | by eexists]. }
  cbn [mbind outcome_bind].
  destruct month as [|m month'] eqn:Emonth.
  { rewrite bool_decide_eq_false_2 by (intros (_ & _ & ?); done).
    change (negb (_is_full_range [] (field_allowed Month))) with true.
    cbv iota. by rewrite _summarize_non_full_month_empty. }
  rewrite <- Emonth in *.
  assert (month ≠ []) as Hmonth_ne by (by rewrite Emonth).
  rewrite bool_decide_eq_true_2 by done.
  destruct (negb _); [|by eexists].
  destruct (_summarize_non_full_month_Ok bits2 month Hmonth_ne Hmonth)
    as [bits3 ->]. by eexists.
Qed.

(** [explain] in terms of the sentence it builds. *)
Lemma explain_unfold spec :
  explain spec
  = (schedule ← _ensure_cron_schedule spec;
     time_phrase ← _summarize_time (minute schedule) (hour schedule);
     calendar_bits ← _summarize_calendar (day_of_month schedule)
                        (month schedule) (day_of_week schedule);
     if String.eqb (built_sentence time_phrase calendar_bits) EmptyString then
       Raise (NotImplementedError
                ("Cannot generate explanation for " +:+ show_spec spec
                 +:+ " right now"))
     else Ok (built_sentence time_phrase calendar_bits +:+ ".")).
Proof. reflexivity. Qed.

Lemma dropwhile_app_last {A} (p : A → bool) l x :
  p x = false → Py.dropwhile p (l ++ [x]) ≠ [].
Proof.
  intros Hx. induction l as [|y l IH]; simpl; [by rewrite Hx|].
  by destruct (p y).
Qed.

(** Text whose first character is no white space does not strip to
    nothing. *)
Lemma strip_nonempty c s :
  Py.isspace c = false → Py.strip (String c s) ≠ EmptyString.
Proof.
  intros Hc. unfold Py.strip, Py.chars.
  cbn [list_ascii_of_string Py.dropwhile]. rewrite Hc.
  cbn [rev].
  pose proof (dropwhile_app_last Py.isspace (rev (list_ascii_of_string s)) c Hc)
    as Hdrop.
  destruct (Py.dropwhile _ _) as [|x l]; [done|].
  cbn [rev]. destruct (rev l); discriminate.
Qed.

Lemma telling_phrase_first phrase :
  telling_phrase phrase = true →
  ∃ c rest, phrase = String c rest ∧ Py.isspace c = false.
Proof.
  destruct phrase as [|c rest]; [done|]. intros H. exists c, rest.
  split; [done|]. unfold telling_phrase, Py.startswith in H.
  cbn [String.prefix] in H.
  destruct (ascii_dec "E" c) as [<-|]; [reflexivity|].
  destruct (ascii_dec "A" c) as [<-|]; [reflexivity|]. done.
Qed.

Lemma qualifier_first bit :
  qualifier bit = true →
  ∃ c rest, bit = String c rest ∧ Py.isspace c = false.
Proof.
  destruct bit as [|c rest]; [done|]. intros H. exists c, rest.
  split; [done|]. unfold qualifier, Py.startswith in H.
  cbn [String.prefix] in H.
  destruct (ascii_dec "o" c) as [<-|]; [reflexivity|].
  destruct (ascii_dec "f" c) as [<-|]; [reflexivity|].
  destruct (ascii_dec "d" c) as [<-|]; [reflexivity|].
  destruct (ascii_dec "i" c) as [<-|]; [reflexivity|]. done.
Qed.

Lemma join_first sep c rest items :
  ∃ rest', Py.join sep (String c rest :: items) = String c rest'.
Proof. destruct items; simpl; by eexists. Qed.

(** The sentence is empty only when there is neither a time phrase nor
    a calendar qualifier. *)
Lemma built_sentence_nonempty time_phrase calendar_bits :
  time_phrase = EmptyString ∨ telling_phrase time_phrase = true →
  Forall (λ bit, qualifier bit = true) calendar_bits →
  built_sentence time_phrase calendar_bits = EmptyString →
  time_phrase = EmptyString ∧ calendar_bits = [].
Proof.
  intros Hphrase Hbits. unfold built_sentence.
  destruct (Py.startswith "At " time_phrase && _); [done|].
  destruct Hphrase as [-> | Htelling].
  - destruct calendar_bits as [|bit bits]; [done|].
    apply Forall_cons in Hbits as [Hbit _].
    apply qualifier_first in Hbit as (c & rest & -> & Hc).
    rewrite bool_decide_eq_false_2 by done.
    cbn [String.eqb negb append app].
    destruct (join_first " " c rest bits) as [rest' ->].
    cbn [Py.join]. intros H. by apply strip_nonempty in H.
  - apply telling_phrase_first in Htelling as (c & rest & -> & Hc).
    cbn [String.eqb negb append app].
    destruct (negb _); cbn [append app];
      destruct (join_first " " c rest []) as [r1 Hr1];
      destruct (join_first " " c rest [Py.join " " calendar_bits]) as [r2 Hr2];
      rewrite ?Hr1, ?Hr2; intros H; by apply strip_nonempty in H.
Qed.

Lemma built_sentence_empty : built_sentence EmptyString [] = EmptyString.
Proof. reflexivity. Qed.

Lemma explain_parsed_returns expression schedule :
  parse expression = Ok schedule →
  day_of_week schedule ≠ [] → day_of_month schedule ≠ [] →
  month schedule ≠ [] →
  (∃ sentence, sentence ≠ EmptyString ∧
               explain (SpecStr expression) = Ok (sentence +:+ "."))
  ∨
  (_summarize_time (minute schedule) (hour schedule) = Ok EmptyString ∧
   full DayOfWeek (day_of_week schedule) = true ∧
   full DayOfMonth (day_of_month schedule) = true ∧
   full Month (month schedule) = true ∧
   explain (SpecStr expression)
   = Raise (NotImplementedError
              ("Cannot generate explanation for " +:+ expression
               +:+ " right now"))).
Proof.
  intros Hrun Hdow Hdom Hmonth. rewrite explain_unfold.
  cbn [_ensure_cron_schedule show_spec]. rewrite Hrun. cbn [mbind outcome_bind].
  destruct (_summarize_time_phrase (minute schedule) (hour schedule))
    as (phrase & Hphrase & Hshape).
  rewrite Hphrase. cbn [mbind outcome_bind].
  pose proof (_summarize_calendar_in_range (day_of_month schedule)
                (month schedule) (day_of_week schedule)) as Hcal.
  rewrite bool_decide_eq_true_2 in Hcal by done.
  destruct Hcal as [bits Hbits].
  { intros v Hv. by apply (parse_field_in_range _ _ Hrun DayOfWeek). }
  { intros v Hv. by apply (parse_field_in_range _ _ Hrun Month). }
  rewrite Hbits. cbn [mbind outcome_bind].
  apply _summarize_calendar_steps in Hbits
    as (l1 & l2 & l3 & -> & Hq & Hl1 & Hl2 & Hl3).
  destruct (String.eqb_spec (built_sentence phrase (l1 ++ l2 ++ l3)) EmptyString)
    as [Hempty | Hfilled]; [right | left; by eexists].
  apply built_sentence_nonempty in Hempty as [-> Hnil]; [|done..].
  apply (f_equal length) in Hnil. rewrite !length_app in Hnil. simpl in Hnil.
  split; [done|].
  destruct (full DayOfWeek _), (full DayOfMonth _), (full Month _);
    first [done | lia].
Qed.

(** X14: for an expression that parses into a schedule whose day-of-week,
    day-of-month and month fields are not empty, [explain] either returns
    a non-empty sentence followed by a period, or raises
    [NotImplementedError] naming the expression; and it raises only when
    no time pattern applies (the time phrase is empty) and the three
    calendar fields are full. No other exception is raised. *)
Theorem explain_returns_sentence_or_not_implemented
    (expression : string) (schedule : CronSchedule) :
  parse expression = Ok schedule →
  day_of_week schedule ≠ [] → day_of_month schedule ≠ [] →
  month schedule ≠ [] →
  (∃ sentence, sentence ≠ EmptyString ∧
               explain (SpecStr expression) = Ok (sentence +:+ "."))
  ∨
  (_summarize_time (minute schedule) (hour schedule) = Ok EmptyString ∧
   full DayOfWeek (day_of_week schedule) = true ∧
   full DayOfMonth (day_of_month schedule) = true ∧
   full Month (month schedule) = true ∧
   explain (SpecStr expression)
   = Raise (NotImplementedError
              ("Cannot generate explanation for " +:+ expression
               +:+ " right now"))).
Proof. apply explain_parsed_returns. Qed.

Lemma explain_returns_sentence_or_not_implemented_witness :
  (∃ sentence, sentence ≠ EmptyString ∧
               explain (SpecStr "1,2,4 1 * * 5") = Ok (sentence +:+ ".")) ∧
  explain (SpecStr "1,2,4 1 * * *")
  = Raise (NotImplementedError
             "Cannot generate explanation for 1,2,4 1 * * * right now").
Proof.
  split.
  - destruct (explain_returns_sentence_or_not_implemented "1,2,4 1 * * 5"
                {| minute := [1; 2; 4]; hour := [1];
                   day_of_month := field_allowed DayOfMonth;
                   month := field_allowed Month; day_of_week := [5] |})
      as [Hok | (_ & Hfull & _)];
      [by vm_compute | done | done | done | exact Hok | by vm_compute in Hfull].
  - destruct (explain_returns_sentence_or_not_implemented "1,2,4 1 * * *"
                {| minute := [1; 2; 4]; hour := [1];
                   day_of_month := field_allowed DayOfMonth;
                   month := field_allowed Month;
                   day_of_week := field_allowed DayOfWeek |})
      as [(sentence & _ & Hok) | (_ & _ & _ & _ & Hraise)];
      [by vm_compute | done | done | done | by vm_compute in Hok | exact Hraise].
Defined.

(** X15: for an expression that parses into a schedule with an empty
    day-of-week, day-of-month or month field (a field made of reversed
    ranges only), [explain] raises [IndexError]: the helper for that
    field finds the empty tuple contiguous and reads its first item. *)
Theorem explain_empty_calendar_field_raises_IndexError
    (expression : string) (schedule : CronSchedule) :
  parse expression = Ok schedule →
  day_of_week schedule = [] ∨ day_of_month schedule = [] ∨ month schedule = [] →
  explain (SpecStr expression) = Raise (IndexError "tuple index out of range").
Proof.
  intros Hrun Hempty. rewrite explain_unfold.
  cbn [_ensure_cron_schedule]. rewrite Hrun. cbn [mbind outcome_bind].
  destruct (_summarize_time_phrase (minute schedule) (hour schedule))
    as (phrase & -> & _). cbn [mbind outcome_bind].
  pose proof (_summarize_calendar_in_range (day_of_month schedule)
                (month schedule) (day_of_week schedule)) as Hcal.
  rewrite bool_decide_eq_false_2 in Hcal by (intros (? & ? & ?); by destruct Hempty as [?|[?|?]]).
  rewrite Hcal; [done| |].
  - intros v Hv. by apply (parse_field_in_range _ _ Hrun DayOfWeek).
  - intros v Hv. by apply (parse_field_in_range _ _ Hrun Month).
Qed.

Lemma explain_empty_calendar_field_raises_IndexError_witness :
  explain (SpecStr "0 9 * * 5-1") = Raise (IndexError "tuple index out of range").
Proof.
  apply (explain_empty_calendar_field_raises_IndexError "0 9 * * 5-1"
           {| minute := [0]; hour := [9];
              day_of_month := field_allowed DayOfMonth;
              month := field_allowed Month; day_of_week := [] |});
    [by vm_compute | by left].
Defined.

(** X16: explaining an expression and explaining the schedule it parses
    into give the same sentence, and fail alike; only the message of
    [NotImplementedError], which prints the argument, differs. *)
Theorem explain_string_agrees_with_schedule
    (expression : string) (schedule : CronSchedule) :
  parse expression = Ok schedule →
  (∀ sentence, explain (SpecStr expression) = Ok sentence ↔
               explain (SpecSchedule schedule) = Ok sentence) ∧
  (∀ e, (∀ msg, e ≠ NotImplementedError msg) →
        explain (SpecStr expression) = Raise e ↔
        explain (SpecSchedule schedule) = Raise e) ∧
  ((∃ msg, explain (SpecStr expression) = Raise (NotImplementedError msg)) ↔
   (∃ msg, explain (SpecSchedule schedule) = Raise (NotImplementedError msg))).
Proof.
  intros Hrun. rewrite !explain_unfold.
  cbn [_ensure_cron_schedule]. rewrite Hrun. cbn [mbind outcome_bind].
  destruct (_summarize_time _ _) as [phrase|e1]; cbn [mbind outcome_bind];
    [|split_and!; [done | done | split; intros [msg H]; by exists msg]].
  destruct (_summarize_calendar _ _ _) as [bits|e2]; cbn [mbind outcome_bind];
    [|split_and!; [done | done | split; intros [msg H]; by exists msg]].
  destruct (String.eqb _ _).
  - split_and!.
    + done.
    + intros e He. split; intros [= <-]; exfalso; by eapply He.
    + split; intros _; by eexists.
  - split_and!; [done | done | split; intros [msg H]; done].
Qed.

Lemma explain_string_agrees_with_schedule_witness :
  explain (SpecSchedule {| minute := [0]; hour := [8]; day_of_month := [1; 15];
                           month := field_allowed Month;
                           day_of_week := field_allowed DayOfWeek |})
  = Ok "At 08:00 on the 1st and 15th of each month.".
Proof.
  apply (proj1 (explain_string_agrees_with_schedule "0 8 1,15 * *" _
                  ltac:(by vm_compute))).
  by vm_compute.
Defined.

(** X17: [explain] of a string that is no valid expression raises the
    [ValueError] of [parse] unchanged, and [explain] of a value that is
    neither a string nor a schedule raises [TypeError]. *)
Theorem explain_rejects_bad_input (expression : string) :
  ((∃ schedule, parse expression = Ok schedule) ∨
   explain (SpecStr expression)
   = Raise (ValueError (Py.repr expression +:+ " is not valid cron expression.")))
  ∧ explain SpecOther
    = Raise (TypeError "spec must be a cron string or CronSchedule").
Proof.
  split; [|reflexivity].
  destruct (parse_outcome expression) as [Hok | Hfail]; [by left|right].
  rewrite explain_unfold. cbn [_ensure_cron_schedule]. by rewrite Hfail.
Qed.

Lemma _summarize_time_single m h :
  _summarize_time [m] [h] = Ok ("At " +:+ _format_time h m).
Proof.
  unfold _summarize_time. rewrite field_range_hours. cbn [mbind outcome_bind].
  unfold _is_full_range at 1. rewrite bool_decide_eq_false_2 by done.
  cbn [andb]. change (Py.len [m] =? 1) with true. cbv iota.
  unfold _summarize_simple_exact_times.
  change (Py.len [m] =? 1) with true. change (Py.len [h] =? 1) with true.
  change (1 <? Py.len [h]) with false. cbn [negb].
  rewrite !first_item_cons. cbn [mbind outcome_bind].
  rewrite (andb_false_r (m =? 0)). reflexivity.
Qed.

Lemma append_assoc (s1 s2 s3 : string) :
  (s1 +:+ s2) +:+ s3 = s1 +:+ s2 +:+ s3.
Proof.
  induction s1 as [|c s1 IH]; [done|].
  change ((String c s1 +:+ s2) +:+ s3) with (String c ((s1 +:+ s2) +:+ s3)).
  by rewrite IH.
Qed.

Lemma substring_whole s : String.substring 0 (String.length s) s = s.
Proof. induction s as [|c s IH]; [done|]. simpl. by rewrite IH. Qed.

(** X18: a schedule with one minute value [m] in 0..59, one hour value
    [h] in 0..23 and no calendar restriction is explained as
    "Every day at HH:MM.", with the hour and the minute zero-padded to
    two digits. *)
Theorem explain_single_time_every_day (h m : Z) :
  h ∈ field_allowed Hour → m ∈ field_allowed Minute →
  explain (SpecSchedule {| minute := [m]; hour := [h];
                           day_of_month := field_allowed DayOfMonth;
                           month := field_allowed Month;
                           day_of_week := field_allowed DayOfWeek |})
  = Ok ("Every day at " +:+ Py.format_02d h +:+ ":" +:+ Py.format_02d m +:+ ".").
Proof.
  intros _ _.
  rewrite explain_unfold. cbn [_ensure_cron_schedule mbind outcome_bind].
  cbn [minute hour day_of_month month day_of_week].
  rewrite _summarize_time_single. cbn [mbind outcome_bind].
  change (_summarize_calendar (field_allowed DayOfMonth) (field_allowed Month)
            (field_allowed DayOfWeek)) with (Ok (A:=list string) []).
  cbn [mbind outcome_bind].
  assert (built_sentence ("At " +:+ _format_time h m) []
          = "Every day at " +:+ _format_time h m) as ->.
  { unfold built_sentence. rewrite startswith_append.
    rewrite bool_decide_eq_true_2 by done. cbn [andb].
    change ("At " +:+ _format_time h m)
      with (String "A" (String "t" (String " " (_format_time h m)))).
    cbn [Py.replace_first]. fold (Py.startswith "At ").
    change (String "A" (String "t" (String " " (_format_time h m))))
      with ("At " +:+ _format_time h m).
    rewrite startswith_append.
    change ("At " +:+ _format_time h m)
      with (String "A" (String "t" (String " " (_format_time h m)))).
    cbn [String.length String.substring Nat.sub].
    by rewrite Nat.sub_0_r, substring_whole. }
  change ("Every day at " +:+ _format_time h m)
    with (String "E" ("very day at " +:+ _format_time h m)) at 1.
  cbn [String.eqb]. unfold _format_time. by rewrite !append_assoc.
Qed.

Lemma explain_single_time_every_day_witness :
  explain (SpecSchedule {| minute := [5]; hour := [14];
                           day_of_month := field_allowed DayOfMonth;
                           month := field_allowed Month;
                           day_of_week := field_allowed DayOfWeek |})
  = Ok "Every day at 14:05.".
Proof. apply (explain_single_time_every_day 14 5); list_member. Defined.

(** X19: for every day of the month, 1 to 31, [_as_ordinal] gives the
    English ordinal: "st" after 1, 21 and 31, "nd" after 2 and 22, "rd"
    after 3 and 23, and "th" after every other day, the teens included. *)
Theorem _as_ordinal_day_of_month (day : Z) :
  day ∈ field_allowed DayOfMonth →
  _as_ordinal day
  = Py.str day +:+ (if bool_decide (day ∈ [1; 21; 31]) then "st"
                    else if bool_decide (day ∈ [2; 22]) then "nd"
                    else if bool_decide (day ∈ [3; 23]) then "rd"
                    else "th").
Proof.
  revert day. apply Forall_forall. repeat constructor; by vm_compute.
Qed.

Lemma _as_ordinal_day_of_month_witness :
  _as_ordinal 12 = "12th" ∧ _as_ordinal 22 = "22nd".
Proof.
  split.
  - apply (_as_ordinal_day_of_month 12). list_member.
  - apply (_as_ordinal_day_of_month 22). list_member.
Defined.

(** X20: a minute field [*/n] with a step from 2 to 59 and no other
    restriction is explained as "Every n minutes.", and an hour field
    [*/n] with a step from 2 to 23 at minute 0 as "Every n hours.". *)
Theorem explain_wildcard_step (n : Z) :
  (2 ≤ n ≤ 59 →
   explain (SpecStr ("*/" +:+ Py.str n +:+ " * * * *"))
   = Ok ("Every " +:+ Py.str n +:+ " minutes.")) ∧
  (2 ≤ n ≤ 23 →
   explain (SpecStr ("0 */" +:+ Py.str n +:+ " * * *"))
   = Ok ("Every " +:+ Py.str n +:+ " hours.")).
Proof.
  split; intros Hn.
  - assert (n ∈ seqZ 2 58) as Hin by (apply elem_of_seqZ; lia).
    clear Hn. revert n Hin. apply Forall_forall.
    repeat constructor; by vm_compute.
  - assert (n ∈ seqZ 2 22) as Hin by (apply elem_of_seqZ; lia).
    clear Hn. revert n Hin. apply Forall_forall.
    repeat constructor; by vm_compute.
Qed.

Lemma explain_wildcard_step_witness :
  explain (SpecStr "*/7 * * * *") = Ok "Every 7 minutes." ∧
  explain (SpecStr "0 */6 * * *") = Ok "Every 6 hours.".
Proof.
  split.
  - apply (proj1 (explain_wildcard_step 7)). lia.
  - apply (proj2 (explain_wildcard_step 6)). lia.
Defined.

End Explain.
